(** * BaseLanguageModel: the streaming bridge between a model provider and
      the chat sink

    A shallow embedding of [BaseLanguageModel] (its [request] and
    [handleStreamingRequest] methods, the role conversion and the tool
    conversion), with the properties of the chunk dispatcher and of the
    trim filter that the natural-language specification states.

    Modelling conventions.
    - A JavaScript string is a [string]; one [ascii] stands for one code
      unit.  The string methods the code calls ([includes], [indexOf],
      [substring], [split], [endsWith]) are defined below with the
      behaviour ECMAScript gives them.
    - A value of TypeScript type [any] (tool arguments, tool results,
      schemas, provider handles, provider options) is an element of an
      abstract type [Any], a parameter of the development.
    - The chat sink ([ChatReadableStream]) is the log of the calls made on
      it, in the order they are made.
    - The chunk sequence [stream.fullStream] is a finite list of chunks
      that either ends or raises a fault once the chunks are consumed.
    - Effects (sink calls, the provider request, reads of the wall clock,
      raised faults) live in a small state-and-exception monad [M].
    - The abort wiring ([AbortController], [cancellationToken]) is not
      part of the model. *)

From Stdlib Require Import ZArith QArith Lia Ascii DecimalString.
From stdpp Require Import base list strings gmap.

Local Open Scope Z_scope.

(** ** JavaScript strings *)

Module Js.

Definition newline : ascii := Ascii.ascii_of_nat 10.

Definition nl : string := String newline EmptyString.

(** [s.startsWith(p)] *)
Fixpoint startsWith (s p : string) : bool :=
  match p, s with
  | EmptyString, _ => true
  | String _ _, EmptyString => false
  | String b p', String a s' => if Ascii.eqb a b then startsWith s' p' else false
  end.

(** The first position at or after [i] (the position of the head of
    [s]) where [p] occurs, and -1 when there is none. *)
Fixpoint indexOf_from (s p : string) (i : Z) : Z :=
  if startsWith s p then i
  else match s with
       | EmptyString => -1
       | String _ s' => indexOf_from s' p (i + 1)
       end.

(** [s.indexOf(p)] *)
Definition indexOf (s p : string) : Z := indexOf_from s p 0.

(** [s.includes(p)] *)
Definition includes (s p : string) : bool := negb (indexOf s p =? -1).

Definition clamp (len : nat) (i : Z) : nat := Z.to_nat (Z.min (Z.max i 0) (Z.of_nat len)).

(** [s.substring(start, end)]: both indices are clamped to the length
    of [s] and swapped when [start] is the larger one. *)
Definition substring (s : string) (start end_ : Z) : string :=
  let a := clamp (String.length s) start in
  let b := clamp (String.length s) end_ in
  String.substring (Nat.min a b) (Nat.max a b - Nat.min a b) s.

(** [s.substring(start)] *)
Definition substring_from (s : string) (start : Z) : string :=
  substring s start (Z.of_nat (String.length s)).

(** [s.endsWith(p)] *)
Definition endsWith (s p : string) : bool :=
  (String.length p <=? String.length s)%nat
  && String.eqb (String.substring (String.length s - String.length p) (String.length p) s) p.

(** [s.split('\n')]: never empty, the last piece is what follows the
    last newline. *)
Fixpoint split_nl (s : string) : list string :=
  match s with
  | EmptyString => [EmptyString]
  | String c s' =>
      if Ascii.eqb c newline then EmptyString :: split_nl s'
      else match split_nl s' with
           | piece :: pieces => String c piece :: pieces
           | [] => [String c EmptyString]
           end
  end.

(** A string is truthy when it is not empty. *)
Definition truthy (s : string) : bool :=
  match s with EmptyString => false | String _ _ => true end.

(** [n.toString()] for an integer [n] *)
Definition toString (n : Z) : string := NilZero.string_of_int (Z.to_int n).

(** A string without a newline character. *)
Fixpoint newline_free (s : string) : bool :=
  match s with
  | EmptyString => true
  | String c s' => negb (Ascii.eqb c newline) && newline_free s'
  end.

(** JavaScript numbers, as far as the code looks at them: a rational
    value or NaN.  A number is truthy unless it is zero or NaN. *)
Inductive number : Type :=
| Num (q : Q)
| NaN.

Definition number_truthy (n : number) : bool :=
  match n with
  | Num q => negb (Qeq_bool q 0)
  | NaN => false
  end.

(** [x || d] for an optional number [x] *)
Definition number_or (x : option number) (d : number) : number :=
  match x with
  | Some n => if number_truthy n then n else d
  | None => d
  end.

End Js.

(** ** Data model *)

(** A thrown JavaScript value: an [Error] with its message. *)
Inductive exn : Type :=
| JsError (message : string).

(** [ChatMessageRole], with one more value for anything outside the
  enumeration. *)
Inductive ChatMessageRole : Type :=
| RoleSystem
| RoleUser
| RoleAssistant
| RoleFunction
| RoleOther.

Record IChatMessage : Type := {
msg_role : ChatMessageRole;
msg_content : string
}.

Record CoreMessage : Type := {
role : string;
content : string
}.

Definition convertChatMessageRole (r : ChatMessageRole) : string :=
match r with
| RoleSystem => "system"
| RoleUser => "user"
| RoleAssistant => "assistant"
| RoleFunction => "tool"
| RoleOther => "user"
end.

(** How a call ends: with a value, or with a thrown fault. *)
Inductive outcome (A : Type) : Type :=
| Normal (a : A)
| Thrown (e : exn).
Arguments Normal {A} a.
Arguments Thrown {A} e.

Section DataModel.

(** The TypeScript type [any]. *)
Context {Any : Type}.

(** *** Requests *)

Record ToolRequest : Type := {
  tr_name : string;
  tr_description : option string;
  tr_parameters : Any;
  tr_handler : string -> Any -> Any
}.

(** What [tool({...})] is given. *)
Record AITool : Type := {
  description : string;
  parameters : Any;
  execute : Any -> Any -> Any
}.

Record IAIBackServiceOption : Type := {
  clientId : option string;
  noTool : option bool;
  history : option (list IChatMessage);
  modelId : option string;
  temperature : option Js.number;
  topP : option Js.number;
  topK : option Js.number;
  providerOptions : option Any;
  trimTexts : option (string * string)
}.

(** The argument of [streamText]. *)
Record StreamTextArgs : Type := {
  st_model : Any;
  st_maxTokens : Z;
  st_tools : gmap string AITool;
  st_messages : list CoreMessage;
  st_toolCallStreaming : bool;
  st_maxSteps : Z;
  st_temperature : option Js.number;
  st_topP : Js.number;
  st_topK : Js.number;
  st_providerOptions : option Any
}.

(** *** Chunks of [stream.fullStream] *)

Inductive chunk : Type :=
| TextDelta (textDelta : string)
| ToolCall (toolCallId toolName : string) (args : Any)
| ToolCallStreamingStart (toolCallId toolName : string)
| ToolCallDelta (toolCallId toolName argsTextDelta : string)
| ToolResult (toolCallId toolName : string) (args result : Any)
| ErrorChunk (error : string)
| OtherChunk.

(** The chunks the provider yields, and the fault that iterating
    raises after them, if any. *)
Record fullStream : Type := {
  chunks : list chunk;
  fault : option exn
}.

(** *** Events of the sink *)

Inductive tool_state : Type :=
| StreamingStart
| Streaming
| Complete
| Result.

Record tool_call : Type := {
  tc_id : string;
  tc_name : string;
  tc_arguments : option string;
  tc_result : option Any;
  tc_state : tool_state
}.

Inductive data : Type :=
| Content (text : string)
| ToolCallData (tc : tool_call).

(** A call on the [ChatReadableStream]. *)
Inductive sink_call : Type :=
| EmitData (d : data)
| EmitError (e : exn)
| End.

(** *** The world the methods act on *)

Record world : Type := {
  sink : list sink_call;
  provider_calls : list StreamTextArgs;
  clock_reads : nat
}.

Definition initial_world : world :=
  {| sink := []; provider_calls := []; clock_reads := 0 |}.

(** *** State and exceptions *)

Definition M (A : Type) : Type := world -> outcome A * world.

Definition ret {A : Type} (a : A) : M A := fun w => (Normal a, w).

Definition bind {A B : Type} (m : M A) (k : A -> M B) : M B :=
  fun w =>
    match m w with
    | (Normal a, w') => k a w'
    | (Thrown e, w') => (Thrown e, w')
    end.

Definition throw {A : Type} (e : exn) : M A := fun w => (Thrown e, w).

Definition try_catch {A : Type} (m : M A) (handler : exn -> M A) : M A :=
  fun w =>
    match m w with
    | (Normal a, w') => (Normal a, w')
    | (Thrown e, w') => handler e w'
    end.

Definition call_sink (c : sink_call) : M unit :=
  fun w => (Normal tt,
            {| sink := sink w ++ [c];
               provider_calls := provider_calls w;
               clock_reads := clock_reads w |}).

Definition emitData (d : data) : M unit := call_sink (EmitData d).

Definition emitError (e : exn) : M unit := call_sink (EmitError e).

Definition end_ : M unit := call_sink End.

(** [streamText(args)]: the request is recorded; the chunks it yields
    are an input of the model. *)
Definition streamText (a : StreamTextArgs) : M unit :=
  fun w => (Normal tt,
            {| sink := sink w;
               provider_calls := provider_calls w ++ [a];
               clock_reads := clock_reads w |}).

End DataModel.

Arguments ToolRequest Any : clear implicits.
Arguments AITool Any : clear implicits.
Arguments IAIBackServiceOption Any : clear implicits.
Arguments StreamTextArgs Any : clear implicits.
Arguments chunk Any : clear implicits.
Arguments fullStream Any : clear implicits.
Arguments tool_call Any : clear implicits.
Arguments data Any : clear implicits.
Arguments sink_call Any : clear implicits.
Arguments world Any : clear implicits.
Arguments M Any A : clear implicits.

Notation "x <- m ;; k" := (bind m (fun x => k))
  (at level 100, m at next level, right associativity).
Notation "m ;; k" := (bind m (fun _ => k))
  (at level 100, right associativity).

(** ** The host and the abstract methods *)

(** What the class takes from its surroundings: [JSON.stringify], the
    readings of the wall clock in the order they are taken, and
    [toolInvocationRegistryManager.getRegistry(clientId).getAllFunctions()]. *)
Class Host (Any : Type) : Type := {
  JSON_stringify : Any -> string;
  wallclock : nat -> Z;
  getAllFunctions : string -> list (ToolRequest Any)
}.

(** The abstract methods of [BaseLanguageModel]; a subclass is an
    instance. *)
Class BaseLanguageModel (Any : Type) : Type := {
  initializeProvider : IAIBackServiceOption Any -> Any;
  getModelIdentifier : Any -> option string -> Any
}.

(** ** The methods of [BaseLanguageModel] *)

Section Methods.

Context {Any : Type} `{!Host Any, !BaseLanguageModel Any}.

(** [Date.now()] *)
Definition Date_now : M Any Z :=
  fun w => (Normal (wallclock (clock_reads w)),
            {| sink := sink w;
               provider_calls := provider_calls w;
               clock_reads := S (clock_reads w) |}).

(** *** Tool conversion *)

Definition convertToolRequestToAITool (toolRequest : ToolRequest Any) : AITool Any :=
  {| description := default "" (tr_description toolRequest);
     parameters := tr_parameters toolRequest;
     execute := fun args options => tr_handler toolRequest (JSON_stringify args) options |}.

(** [Object.fromEntries]: a later entry replaces an earlier one with
    the same key. *)
Definition fromEntries {V : Type} (entries : list (string * V)) : gmap string V :=
  foldl (fun m kv => <[kv.1 := kv.2]> m) ∅ entries.

(** *** The trim filter *)

(** The local variables of [handleStreamingRequest]. *)
Record locals : Type := {
  isFirstChunk : bool;
  bufferedText : string;
  pendingLines : list string
}.

Definition initial_locals : locals :=
  {| isFirstChunk := true; bufferedText := ""; pendingLines := [] |}.

(** [while (pendingLines.length > 3) { emit(pendingLines.shift() + '\n') }];
    returns what is left of [pendingLines]. *)
Fixpoint send_lines (pending : list string) : M Any (list string) :=
  match pending with
  | [] => ret []
  | line :: rest =>
      if (3 <? length pending)%nat
      then emitData (Content (line +:+ Js.nl)) ;; send_lines rest
      else ret pending
  end.

(** The branch of a text delta when [trimTexts] is given. *)
Definition on_text_trimmed (trim0 : string) (textDelta : string) (l : locals) : M Any locals :=
  let buffered := bufferedText l +:+ textDelta in
  let '(buffered, first) :=
    if isFirstChunk l && Js.includes buffered trim0
    then (Js.substring_from buffered (Js.indexOf buffered trim0 + Z.of_nat (String.length trim0)), false)
    else (buffered, isFirstChunk l) in
  let lines := Js.split_nl buffered in
  let buffered := default "" (last lines) in
  let lines := removelast lines in
  let pending := pendingLines l ++ lines in
  pending <- send_lines pending ;;
  ret {| isFirstChunk := first; bufferedText := buffered; pendingLines := pending |}.

(** *** The chunk dispatcher *)

(** The body of the [for await] loop. *)
Definition on_chunk (trimTexts : option (string * string)) (c : chunk Any) (l : locals) : M Any locals :=
  match c with
  | TextDelta textDelta =>
      match trimTexts with
      | Some (trim0, _) => on_text_trimmed trim0 textDelta l
      | None => emitData (Content textDelta) ;; ret l
      end
  | ToolCall toolCallId toolName args =>
      id <- (if Js.truthy toolCallId then ret toolCallId
             else now <- Date_now ;; ret (Js.toString now)) ;;
      emitData (ToolCallData {| tc_id := id; tc_name := toolName;
                                tc_arguments := Some (JSON_stringify args);
                                tc_result := None; tc_state := Complete |}) ;;
      ret l
  | ToolCallStreamingStart toolCallId toolName =>
      emitData (ToolCallData {| tc_id := toolCallId; tc_name := toolName;
                                tc_arguments := None;
                                tc_result := None; tc_state := StreamingStart |}) ;;
      ret l
  | ToolCallDelta toolCallId toolName argsTextDelta =>
      emitData (ToolCallData {| tc_id := toolCallId; tc_name := toolName;
                                tc_arguments := Some argsTextDelta;
                                tc_result := None; tc_state := Streaming |}) ;;
      ret l
  | ToolResult toolCallId toolName args result =>
      emitData (ToolCallData {| tc_id := toolCallId; tc_name := toolName;
                                tc_arguments := Some (JSON_stringify args);
                                tc_result := Some result; tc_state := Result |}) ;;
      ret l
  | ErrorChunk error =>
      emitError (JsError error) ;;
      ret l
  | OtherChunk => ret l
  end.

(** [for await (const chunk of cs) { ... }] over chunks that are all
    delivered. *)
Fixpoint for_chunks (trimTexts : option (string * string)) (cs : list (chunk Any)) (l : locals)
  : M Any locals :=
  match cs with
  | [] => ret l
  | c :: cs' => l' <- on_chunk trimTexts c l ;; for_chunks trimTexts cs' l'
  end.

(** [for await (const chunk of stream.fullStream) { ... }] *)
Definition for_await (trimTexts : option (string * string)) (s : fullStream Any) (l : locals)
  : M Any locals :=
  l' <- for_chunks trimTexts (chunks s) l ;;
  match fault s with
  | Some e => throw e
  | None => ret l'
  end.

(** The last loop of the flush: every line but the last one gets its
    newline back. *)
Fixpoint send_remaining (pending : list string) : M Any unit :=
  match pending with
  | [] => ret tt
  | line :: rest =>
      match rest with
      | [] => emitData (Content line)
      | _ :: _ => emitData (Content (line +:+ Js.nl)) ;; send_remaining rest
      end
  end.

(** [if (trimTexts?.[1]) { ... }] after the loop. *)
Definition flush (trimTexts : option (string * string)) (l : locals) : M Any unit :=
  match trimTexts with
  | Some (_, trim1) =>
      if Js.truthy trim1 then
        let pending :=
          if Js.truthy (bufferedText l) then pendingLines l ++ [bufferedText l]
          else pendingLines l in
        let pending :=
          match last pending with
          | Some lastLine =>
              if Js.endsWith lastLine trim1
              then <[(length pending - 1)%nat :=
                       Js.substring lastLine 0
                         (Z.of_nat (String.length lastLine) - Z.of_nat (String.length trim1))]>
                     pending
              else pending
          | None => pending
          end in
        send_remaining pending
      else ret tt
  | None => ret tt
  end.

Definition handleStreamingRequest
    (provider : Any) (request : string) (tools : list (ToolRequest Any))
    (history : list IChatMessage) (modelId : option string)
    (temperature topP topK : option Js.number) (providerOptions : option Any)
    (trimTexts : option (string * string)) (stream : fullStream Any) : M Any unit :=
  try_catch
    (let aiTools :=
       fromEntries (map (fun tool => (tr_name tool, convertToolRequestToAITool tool)) tools) in
     let messages :=
       map (fun msg => {| role := convertChatMessageRole (msg_role msg);
                          content := msg_content msg |}) history
       ++ [{| role := "user"; content := request |}] in
     streamText {| st_model := getModelIdentifier provider modelId;
                   st_maxTokens := 4096;
                   st_tools := aiTools;
                   st_messages := messages;
                   st_toolCallStreaming := true;
                   st_maxSteps := 12;
                   st_temperature := temperature;
                   st_topP := Js.number_or topP (Js.Num 0.8);
                   st_topK := Js.number_or topK (Js.Num 1);
                   st_providerOptions := providerOptions |} ;;
     l <- for_await trimTexts stream initial_locals ;;
     flush trimTexts l ;;
     end_)
    (fun error => emitError error).

Definition request (request : string) (options : IAIBackServiceOption Any) (stream : fullStream Any)
  : M Any unit :=
  let provider := initializeProvider options in
  match clientId options with
  | Some (String _ _ as clientId) =>
      let allFunctions :=
        match noTool options with
        | Some true => []
        | _ => getAllFunctions clientId
        end in
      handleStreamingRequest provider request allFunctions
        (default [] (history options)) (modelId options)
        (temperature options) (topP options) (topK options)
        (providerOptions options) (trimTexts options) stream
  | _ => throw (JsError "clientId is required")
  end.

(** *** Reading a sink log *)

(** The text of the [Content] events, concatenated in order. *)
Fixpoint content_text (log : list (sink_call Any)) : string :=
  match log with
  | [] => ""
  | EmitData (Content t) :: log' => t +:+ content_text log'
  | _ :: log' => content_text log'
  end.

(** The texts of the [Content] events, in order. *)
Fixpoint contents (log : list (sink_call Any)) : list string :=
  match log with
  | [] => []
  | EmitData (Content t) :: log' => t :: contents log'
  | _ :: log' => contents log'
  end.

Definition is_content (c : sink_call Any) : bool :=
  match c with EmitData (Content _) => true | _ => false end.

Definition is_error (c : sink_call Any) : bool :=
  match c with EmitError _ => true | _ => false end.

Definition is_end (c : sink_call Any) : bool :=
  match c with End => true | _ => false end.

(** The event of a completed line: the line with its newline put back. *)
Definition line_event (line : string) : sink_call Any :=
  EmitData (Content (line +:+ Js.nl)).

(** *** What an observer of the sink tells apart *)

(** A sink call without the fields that depend on the wall clock. *)
Inductive mark : Type :=
| MText (text : string)
| MToolCall (name : string) (state : tool_state)
| MError (message : string)
| MEnd.

Definition mark_of_call (c : sink_call Any) : mark :=
  match c with
  | EmitData (Content t) => MText t
  | EmitData (ToolCallData tc) => MToolCall (tc_name tc) (tc_state tc)
  | EmitError (JsError m) => MError m
  | End => MEnd
  end.

(** The marks a chunk stands for, in a log that follows chunk order. *)
Definition marks_of_chunk (c : chunk Any) : list mark :=
  match c with
  | TextDelta t => [MText t]
  | ToolCall _ name _ => [MToolCall name Complete]
  | ToolCallStreamingStart _ name => [MToolCall name StreamingStart]
  | ToolCallDelta _ name _ => [MToolCall name Streaming]
  | ToolResult _ name _ _ => [MToolCall name Result]
  | ErrorChunk e => [MError e]
  | OtherChunk => []
  end.

Definition is_text_mark (m : mark) : bool :=
  match m with MText _ => true | _ => false end.

Definition not_text_mark (m : mark) : bool := negb (is_text_mark m).

Definition is_error_chunk (c : chunk Any) : bool :=
  match c with ErrorChunk _ => true | _ => false end.

(** A text that is one line: no newline but the one that ends it. *)
Definition completed_line (t : string) : Prop :=
  exists line, t = line +:+ Js.nl /\ Js.newline_free line = true.

Definition content_is_line (c : sink_call Any) : Prop :=
  match c with
  | EmitData (Content t) => completed_line t
  | _ => True
  end.

Definition newline_free_lines (lines : list string) : Prop :=
  Forall (fun line => Js.newline_free line = true) lines.

(** What the sink calls made while the chunks [cs] are consumed have to
    do with [cs]. *)
Record loop_post (trimTexts : option (string * string)) (cs : list (chunk Any))
    (l : locals) (calls : list (sink_call Any)) (l' : locals) : Prop := {
  post_open : Forall (fun c => is_end c = false) calls;
  post_errors :
    length (List.filter is_error calls) = length (List.filter is_error_chunk cs);
  post_marks :
    List.filter not_text_mark (map mark_of_call calls)
    = List.filter not_text_mark (concat (map marks_of_chunk cs));
  post_verbatim :
    trimTexts = None -> map mark_of_call calls = concat (map marks_of_chunk cs);
  post_lines :
    is_Some trimTexts -> newline_free_lines (pendingLines l) ->
    Forall content_is_line calls /\ newline_free_lines (pendingLines l')
}.

Definition has_error_chunk (cs : list (chunk Any)) : bool :=
  existsb is_error_chunk cs.

(** The deltas put back together. *)
Definition concat_text (deltas : list string) : string :=
  foldr String.append "" deltas.

(** One text delta per line, each line with its newline. *)
Definition line_deltas (lines : list string) : list (chunk Any) :=
  map (fun line => TextDelta (line +:+ Js.nl)) lines.

(** A prefix that leaves a delta as it is: the empty one, or one that
    does not occur in it. *)
Definition keeps (trim0 delta : string) : Prop :=
  trim0 = "" \/ Js.includes delta trim0 = false.

(** *** Running a computation *)

(** [m], started in [w], returns [a] in [w'], having made the sink
    calls [calls] and no provider request. *)
Definition runs {A : Type} (m : M Any A) (w : world Any) (a : A)
    (calls : list (sink_call Any)) (w' : world Any) : Prop :=
  m w = (Normal a, w') /\ sink w' = sink w ++ calls /\ provider_calls w' = provider_calls w.

(** The sink after a computation. *)
Definition sink_after {A : Type} (m : M Any A) (w : world Any) : list (sink_call Any) :=
  sink (m w).2.

(** *** Sampling parameters, as the specification words them *)

(** The caller's value when there is one, the default otherwise. *)
Definition caller_or_default (x : option Js.number) (d : Js.number) : Js.number :=
  match x with
  | Some v => v
  | None => d
  end.

(** A value that is omitted, or neither zero nor NaN. *)
Definition omitted_or_truthy (x : option Js.number) : bool :=
  match x with
  | Some v => Js.number_truthy v
  | None => true
  end.

End Methods.

(** ** The round-trip text of the specification *)

Module RoundTrip.

Definition trim : option (string * string) := Some ("P:", ":E").

(** ["P:hello\nworld:E"] *)
Definition text : string := "P:hello" +:+ Js.nl +:+ "world:E".

Definition expected : string := "hello" +:+ Js.nl +:+ "world".

(** The local variables once the first [n] of the 15 characters of
    [text] have been consumed, however they were cut into deltas: the
    prefix is gone after 2 characters, the line [hello] is complete
    after 8. *)
Definition locals_at (n : nat) : locals :=
  if (n <? 2)%nat then
    {| isFirstChunk := true; bufferedText := String.substring 0 n text; pendingLines := [] |}
  else if (n <? 8)%nat then
    {| isFirstChunk := false; bufferedText := String.substring 2 (n - 2) text; pendingLines := [] |}
  else
    {| isFirstChunk := false; bufferedText := String.substring 8 (n - 8) text;
       pendingLines := ["hello"] |}.

End RoundTrip.

(** ** A concrete host and subclass *)

Module Sample.

Definition lookup_tool : ToolRequest string :=
  {| tr_name := "search"; tr_description := Some "find text";
     tr_parameters := "{}"; tr_handler := fun args _ => args |}.

#[global] Instance host : Host string :=
  {| JSON_stringify := fun v => v;
     wallclock := fun n => 1700000000000 + Z.of_nat n;
     getAllFunctions := fun _ => [lookup_tool] |}.

#[global] Instance model : BaseLanguageModel string :=
  {| initializeProvider := fun _ => "provider";
     getModelIdentifier := fun _ modelId => default "default-model" modelId |}.

(** Options without a client identifier. *)
Definition no_client : IAIBackServiceOption string :=
  {| clientId := None; noTool := None; history := None; modelId := None;
     temperature := None; topP := None; topK := None; providerOptions := None;
     trimTexts := None |}.

(** Options of a client, with the tools switched off. *)
Definition no_tool : IAIBackServiceOption string :=
  {| clientId := Some "client-1"; noTool := Some true; history := None; modelId := None;
     temperature := None; topP := None; topK := None; providerOptions := None;
     trimTexts := None |}.

(** [handleStreamingRequest] with nothing but the sampling parameters,
    the trim configuration and the stream. *)
Definition handle (topP topK : option Js.number) (trim : option (string * string))
    (stream : fullStream string) : M string unit :=
  handleStreamingRequest "provider" "hi" [] [] None None topP topK None trim stream.

Definition ended (cs : list (chunk string)) : fullStream string :=
  {| chunks := cs; fault := None |}.

(** A text delta followed by the start of a tool call. *)
Definition text_then_tool : list (chunk string) :=
  [TextDelta "Hi"; ToolCallStreamingStart "c1" "search"].

(** Options of a client that gives a [topP] of zero, a [topK] of 40 and
    a [temperature] of 0.7. *)
Definition mixed_sampling : IAIBackServiceOption string :=
  {| clientId := Some "client-1"; noTool := None; history := None; modelId := None;
     temperature := Some (Js.Num 0.7); topP := Some (Js.Num 0); topK := Some (Js.Num 40);
     providerOptions := None; trimTexts := None |}.

(** One delta per character. *)
Fixpoint characters (s : string) : list string :=
  match s with
  | EmptyString => []
  | String c s' => String c EmptyString :: characters s'
  end.

End Sample.

(** ** What the trim filter computes, as a function of the whole text *)

Module Lines.

(** The completed lines of a text, without their newlines. *)
Definition lines_of (text : string) : list string := removelast (Js.split_nl text).

(** What follows the last newline of a text. *)
Definition tail_of (text : string) : string := default "" (last (Js.split_nl text)).

Definition with_newline (line : string) : string := line +:+ Js.nl.

(** Lines put back together, each with its newline. *)
Definition lines_text (lines : list string) : string :=
  concat_text (map with_newline lines).

(** The completed lines but the last three. *)
Definition released (text : string) : list string :=
  take (length (lines_of text) - 3) (lines_of text).

(** The last three completed lines (all of them when there are fewer). *)
Definition retained (text : string) : list string :=
  drop (length (lines_of text) - 3) (lines_of text).

End Lines.

Section Readings.

Context {Any : Type} `{!Host Any}.

(** The text a chunk carries. *)
Definition chunk_text (c : chunk Any) : string :=
  match c with
  | TextDelta t => t
  | _ => ""
  end.

(** The text of a chunk sequence: its text deltas put together. *)
Definition text_of_chunks (cs : list (chunk Any)) : string :=
  concat_text (map chunk_text cs).

(** The identifiers of the tool-call events of a log, in order. *)
Fixpoint call_ids (log : list (sink_call Any)) : list string :=
  match log with
  | [] => []
  | EmitData (ToolCallData tc) :: log' => tc_id tc :: call_ids log'
  | _ :: log' => call_ids log'
  end.

(** The identifiers the tool-call events of a chunk sequence get, when
    [n] readings of the wall clock have been taken before: the chunk's
    own identifier, and for a complete tool call without one the next
    reading of the clock. *)
Fixpoint expected_ids (n : nat) (cs : list (chunk Any)) : list string :=
  match cs with
  | [] => []
  | ToolCall toolCallId _ _ :: cs' =>
      if Js.truthy toolCallId then toolCallId :: expected_ids n cs'
      else Js.toString (wallclock n) :: expected_ids (S n) cs'
  | ToolCallStreamingStart toolCallId _ :: cs' => toolCallId :: expected_ids n cs'
  | ToolCallDelta toolCallId _ _ :: cs' => toolCallId :: expected_ids n cs'
  | ToolResult toolCallId _ _ _ :: cs' => toolCallId :: expected_ids n cs'
  | _ :: cs' => expected_ids n cs'
  end.

(** The complete tool calls that come without an identifier. *)
Definition anonymous_call (c : chunk Any) : bool :=
  match c with
  | ToolCall toolCallId _ _ => negb (Js.truthy toolCallId)
  | _ => false
  end.




End Readings.

(** ** Sample streams for the trim filter and the tool table *)

Module Marked.

(** Five completed lines and an unfinished one; the second line holds
    the prefix once more. *)
Definition body : string :=
  "a" +:+ Js.nl +:+ "P:b" +:+ Js.nl +:+ "c" +:+ Js.nl +:+ "d" +:+ Js.nl +:+ "e" +:+ Js.nl +:+ "f".

(** The text ["P:" ++ body ++ ":E"] in four deltas, with the start of a
    tool call between them. *)
Definition chunks : list (chunk string) :=
  [TextDelta "P";
   TextDelta (":a" +:+ Js.nl +:+ "P:b");
   ToolCallStreamingStart "c1" "search";
   TextDelta (Js.nl +:+ "c" +:+ Js.nl +:+ "d" +:+ Js.nl +:+ "e" +:+ Js.nl +:+ "f:");
   TextDelta "E"].

(** The same text followed by a newline. *)
Definition chunks_with_newline : list (chunk string) := chunks ++ [TextDelta Js.nl].

(** A text in which neither marker occurs. *)
Definition plain_chunks : list (chunk string) :=
  [TextDelta ("x" +:+ Js.nl +:+ "y"); TextDelta "z"].

(** Two tools of one name and a third one. *)
Definition first_search : ToolRequest string :=
  {| tr_name := "search"; tr_description := None;
     tr_parameters := "{}"; tr_handler := fun _ _ => "old" |}.

Definition other_tool : ToolRequest string :=
  {| tr_name := "open"; tr_description := Some "open a file";
     tr_parameters := "{}"; tr_handler := fun args _ => args |}.

(** Options of a client, with the tools left on. *)
Definition with_tools : IAIBackServiceOption string :=
  {| clientId := Some "client-1"; noTool := None; history := None; modelId := None;
     temperature := None; topP := None; topK := None; providerOptions := None;
     trimTexts := None |}.

(** Options of a client with a history of one message of every role. *)
Definition with_history : IAIBackServiceOption string :=
  {| clientId := Some "client-1"; noTool := None;
     history := Some [{| msg_role := RoleSystem; msg_content := "be brief" |};
                      {| msg_role := RoleUser; msg_content := "hello" |};
                      {| msg_role := RoleAssistant; msg_content := "hi" |};
                      {| msg_role := RoleFunction; msg_content := "42" |};
                      {| msg_role := RoleOther; msg_content := "note" |}];
     modelId := None; temperature := None; topP := None; topK := None;
     providerOptions := None; trimTexts := None |}.

End Marked.

(** ** Properties *)

Section Properties.

Context {Any : Type} `{!Host Any, !BaseLanguageModel Any}.

Implicit Types (w : world Any) (l : locals) (cs : list (chunk Any)).
Implicit Types (calls : list (sink_call Any)) (trim : option (string * string)).

(** *** The monad *)

Lemma runs_ret {A : Type} (a : A) w : runs (ret a) w a [] w.
Proof. unfold runs, ret. by rewrite app_nil_r. Qed.

Lemma runs_bind {A B : Type} (m : M Any A) (k : A -> M Any B) w a calls1 w1 b calls2 w2 :
  runs m w a calls1 w1 ->
  runs (k a) w1 b calls2 w2 ->
  runs (bind m k) w b (calls1 ++ calls2) w2.
Proof.
  intros (Hm & Hs1 & Hp1) (Hk & Hs2 & Hp2). unfold runs, bind.
  rewrite Hm, Hk, Hs2, Hs1, Hp2, Hp1, app_assoc. done.
Qed.

Lemma runs_call_sink (c : sink_call Any) w : runs (call_sink c) w () [c] (call_sink c w).2.
Proof. done. Qed.

Lemma runs_Date_now w : runs Date_now w (wallclock (clock_reads w)) [] (Date_now w).2.
Proof. unfold runs, Date_now. simpl. by rewrite app_nil_r. Qed.

(** *** Strings *)

Lemma split_nl_newline_free (s : string) :
  Forall (fun piece => Js.newline_free piece = true) (Js.split_nl s).
Proof.
  induction s as [|c s IH]; simpl.
  - by repeat constructor.
  - destruct (Ascii.eqb c Js.newline) eqn:Ec.
    + by constructor.
    + destruct (Js.split_nl s) as [|piece pieces].
      * repeat constructor. simpl. by rewrite Ec.
      * inversion IH as [|? ? Hpiece Hpieces]; subst. constructor; [|done].
        simpl. by rewrite Ec.
Qed.

Lemma removelast_Forall {A : Type} (P : A -> Prop) (xs : list A) :
  Forall P xs -> Forall P (removelast xs).
Proof.
  induction 1 as [|x xs Hx Hxs IH]; simpl; [done|].
  destruct xs; [done|]. by constructor.
Qed.

(** *** The trim filter, one delta at a time *)

Lemma send_lines_runs (pending : list string) w :
  exists w', runs (send_lines pending) w
               (drop (length pending - 3) pending)
               (map line_event (take (length pending - 3) pending)) w'.
Proof.
  revert w. induction pending as [|line rest IH]; intros w.
  - exists w. apply runs_ret.
  - cbn [send_lines]. destruct (3 <? length (line :: rest))%nat eqn:E.
    + apply Nat.ltb_lt in E. cbn [length] in E.
      destruct (IH (call_sink (line_event line) w).2) as [w' Hrest].
      exists w'.
      replace (length (line :: rest) - 3)%nat with (S (length rest - 3)) by (cbn [length]; lia).
      cbn [drop take map].
      change (line_event line :: ?t) with ([line_event line] ++ t).
      eapply runs_bind; [apply runs_call_sink|exact Hrest].
    + apply Nat.ltb_ge in E.
      replace (length (line :: rest) - 3)%nat with 0%nat by lia.
      exists w. apply runs_ret.
Qed.

Lemma on_text_trimmed_runs (trim0 textDelta : string) l w :
  exists l' lines w',
    runs (on_text_trimmed trim0 textDelta l) w l' (map line_event lines) w'
    /\ (newline_free_lines (pendingLines l) ->
        newline_free_lines lines /\ newline_free_lines (pendingLines l')).
Proof.
  unfold on_text_trimmed.
  destruct (if isFirstChunk l && Js.includes (bufferedText l +:+ textDelta) trim0
            then _ else _) as [buffered first].
  set (pending := pendingLines l ++ removelast (Js.split_nl buffered)).
  destruct (send_lines_runs pending w) as [w' Hsend].
  eexists _, _, w'. split.
  - rewrite <- (app_nil_r (map line_event _)).
    eapply runs_bind; [exact Hsend|apply runs_ret].
  - intros Hpend.
    assert (newline_free_lines pending) as Hall.
    { apply Forall_app. split; [done|]. apply removelast_Forall, split_nl_newline_free. }
    split; [by apply Forall_take|]. simpl. by apply Forall_drop.
Qed.


Lemma line_event_is_line (lines : list string) :
  newline_free_lines lines -> Forall content_is_line (map (line_event (Any:=Any)) lines).
Proof.
  intros Hlines. apply Forall_map. eapply Forall_impl; [exact Hlines|].
  intros line Hline. by exists line.
Qed.

Lemma line_event_marks (lines : list string) :
  List.filter not_text_mark (map mark_of_call (map (line_event (Any:=Any)) lines)) = [].
Proof. induction lines; simpl; done. Qed.

Lemma line_event_open (lines : list string) :
  Forall (fun c => is_end c = false) (map (line_event (Any:=Any)) lines).
Proof. apply Forall_map. by apply Forall_forall. Qed.

Lemma line_event_errors (lines : list string) :
  List.filter is_error (map (line_event (Any:=Any)) lines) = [].
Proof. induction lines; simpl; done. Qed.

(** *** The dispatcher, one chunk at a time *)

Ltac one_call_post :=
  split; simpl; try done; try (by repeat constructor); try (by intros [? ?]);
  try (intros _ ?; split; [by repeat constructor|done]).

Ltac one_call :=
  eexists _, [_], _; split;
  [ eapply (runs_bind _ _ _ _ [_] _ _ []); [apply runs_call_sink|apply runs_ret]
  | one_call_post ].

Lemma on_chunk_runs trim (c : chunk Any) l w :
  exists l' calls w',
    runs (on_chunk trim c l) w l' calls w' /\ loop_post trim [c] l calls l'.
Proof.
  destruct c as [textDelta|toolCallId toolName args|toolCallId toolName
                |toolCallId toolName argsTextDelta|toolCallId toolName args result|error|];
    cbn [on_chunk].
  - destruct trim as [[trim0 trim1]|].
    + destruct (on_text_trimmed_runs trim0 textDelta l w) as (l' & lines & w' & Hrun & Hlines).
      exists l', (map line_event lines), w'. split; [exact Hrun|].
      split; simpl.
      * apply line_event_open.
      * by rewrite line_event_errors.
      * by rewrite line_event_marks.
      * done.
      * intros _ Hpend. destruct (Hlines Hpend) as [Hl Hl'].
        split; [by apply line_event_is_line|done].
    + one_call.
  - destruct (Js.truthy toolCallId); eexists l, [_], _.
    + split.
      * eapply (runs_bind _ _ _ _ [] _ _ [_]); [apply runs_ret|].
        eapply (runs_bind _ _ _ _ [_] _ _ []); [apply runs_call_sink|apply runs_ret].
      * one_call_post.
    + split.
      * eapply (runs_bind _ _ _ _ [] _ _ [_]).
        { eapply (runs_bind _ _ _ _ [] _ _ []); [apply runs_Date_now|apply runs_ret]. }
        eapply (runs_bind _ _ _ _ [_] _ _ []); [apply runs_call_sink|apply runs_ret].
      * one_call_post.
  - one_call.
  - one_call.
  - one_call.
  - one_call.
  - exists l, [], w. split; [apply runs_ret|].
    split; simpl; try done.
Qed.

(** *** The dispatcher, over all the chunks *)

Lemma loop_post_nil trim l : loop_post (Any:=Any) trim [] l [] l.
Proof. split; simpl; try done. Qed.

Lemma loop_post_cons trim (c : chunk Any) cs l calls1 l1 calls2 l2 :
  loop_post trim [c] l calls1 l1 ->
  loop_post trim cs l1 calls2 l2 ->
  loop_post trim (c :: cs) l (calls1 ++ calls2) l2.
Proof.
  intros [Ho1 He1 Hm1 Hv1 Hl1] [Ho2 He2 Hm2 Hv2 Hl2]. split.
  - apply Forall_app. done.
  - rewrite List.filter_app, length_app, He1, He2. simpl.
    destruct (is_error_chunk c); simpl; lia.
  - rewrite map_app, List.filter_app, Hm1, Hm2. simpl.
    rewrite app_nil_r. by rewrite List.filter_app.
  - intros Htrim. rewrite map_app, (Hv1 Htrim), (Hv2 Htrim). simpl.
    by rewrite app_nil_r.
  - intros Htrim Hpend. destruct (Hl1 Htrim Hpend) as [Hc1 Hpend1].
    destruct (Hl2 Htrim Hpend1) as [Hc2 Hpend2].
    split; [by apply Forall_app|done].
Qed.

Lemma for_chunks_runs trim cs l w :
  exists l' calls w',
    runs (for_chunks trim cs l) w l' calls w' /\ loop_post trim cs l calls l'.
Proof.
  revert l w. induction cs as [|c cs IH]; intros l w.
  - exists l, [], w. split; [apply runs_ret|apply loop_post_nil].
  - destruct (on_chunk_runs trim c l w) as (l1 & calls1 & w1 & Hrun1 & Hpost1).
    destruct (IH l1 w1) as (l2 & calls2 & w2 & Hrun2 & Hpost2).
    exists l2, (calls1 ++ calls2), w2. split.
    + cbn [for_chunks]. eapply runs_bind; [exact Hrun1|exact Hrun2].
    + by eapply loop_post_cons.
Qed.

(** *** The flush *)

Lemma send_remaining_runs (pending : list string) w :
  exists calls w',
    runs (send_remaining pending) w () calls w'
    /\ Forall (fun c => is_content c = true) calls.
Proof.
  revert w. induction pending as [|line rest IH]; intros w.
  - exists [], w. split; [apply runs_ret|done].
  - cbn [send_remaining]. destruct rest as [|line' rest].
    + eexists [_], _. split; [apply runs_call_sink|by repeat constructor].
    + destruct (IH (call_sink (EmitData (Content (line +:+ Js.nl))) w).2)
        as (calls & w' & Hrun & Hall).
      eexists (_ :: calls), w'. split.
      * change (?c :: calls) with ([c] ++ calls).
        eapply runs_bind; [apply runs_call_sink|exact Hrun].
      * by constructor.
Qed.

Lemma flush_runs trim l w :
  exists calls w',
    runs (flush trim l) w () calls w'
    /\ Forall (fun c => is_content c = true) calls
    /\ (trim = None -> calls = []).
Proof.
  unfold flush. destruct trim as [[trim0 trim1]|].
  - destruct (Js.truthy trim1).
    + match goal with
      | |- context [send_remaining ?p] => destruct (send_remaining_runs p w) as (calls & w' & Hrun & Hall)
      end.
      by exists calls, w'.
    + exists [], w. split; [apply runs_ret|done].
  - exists [], w. split; [apply runs_ret|done].
Qed.

Lemma content_calls_open calls :
  Forall (fun c => is_content c = true) calls ->
  Forall (fun c => is_end c = false) calls
  /\ List.filter is_error calls = []
  /\ List.filter not_text_mark (map mark_of_call calls) = [].
Proof.
  induction 1 as [|c calls Hc Hcalls (IH1 & IH2 & IH3)]; [done|].
  destruct c as [[t|tc]|e|]; try done. simpl. by repeat split; [constructor|..].
Qed.

(** *** The whole request *)

Lemma bind_thrown {A B : Type} (m : M Any A) (k : A -> M Any B) w e w' :
  m w = (Thrown e, w') -> bind m k w = (Thrown e, w').
Proof. intros Hm. unfold bind. by rewrite Hm. Qed.

Lemma for_await_ended trim (stream : fullStream Any) l w :
  fault stream = None ->
  exists l' calls w',
    runs (for_await trim stream l) w l' calls w'
    /\ loop_post trim (chunks stream) l calls l'.
Proof.
  intros Hfault.
  destruct (for_chunks_runs trim (chunks stream) l w) as (l' & calls & w' & Hrun & Hpost).
  exists l', calls, w'. split; [|done].
  unfold for_await. rewrite Hfault, <- (app_nil_r calls).
  eapply runs_bind; [exact Hrun|apply runs_ret].
Qed.

Lemma for_await_faulted trim (stream : fullStream Any) l w e :
  fault stream = Some e ->
  exists l' calls w',
    for_await trim stream l w = (Thrown e, w')
    /\ sink w' = sink w ++ calls
    /\ provider_calls w' = provider_calls w
    /\ loop_post trim (chunks stream) l calls l'.
Proof.
  intros Hfault.
  destruct (for_chunks_runs trim (chunks stream) l w)
    as (l' & calls & w' & (Hrun & Hsink & Hcalls) & Hpost).
  exists l', calls, w'. split; [|done].
  unfold for_await, bind. by rewrite Hrun, Hfault.
Qed.

(** A stream that ends: the loop, the flush, then [end()]. *)
Lemma handleStreamingRequest_ended
    (provider : Any) (request : string) (tools : list (ToolRequest Any))
    (history : list IChatMessage) (modelId : option string)
    (temperature topP topK : option Js.number) (providerOptions : option Any)
    trim (stream : fullStream Any) w :
  fault stream = None ->
  exists l' loop_calls flush_calls w',
    handleStreamingRequest provider request tools history modelId temperature topP topK
      providerOptions trim stream w = (Normal (), w')
    /\ sink w' = sink w ++ loop_calls ++ flush_calls ++ [End]
    /\ loop_post trim (chunks stream) initial_locals loop_calls l'
    /\ Forall (fun c => is_content c = true) flush_calls
    /\ (trim = None -> flush_calls = []).
Proof.
  intros Hfault. unfold handleStreamingRequest, try_catch.
  match goal with |- context [streamText ?a] => set (args := a) end.
  unfold bind at 1. cbn [streamText].
  match goal with |- context [bind _ _ ?x] => set (w1 := x) end.
  destruct (for_await_ended trim stream initial_locals w1 Hfault)
    as (l' & loop_calls & w2 & Hloop & Hpost).
  destruct (flush_runs trim l' w2) as (flush_calls & w3 & Hflush & Hcontent & Hnone).
  assert (runs (l <- for_await trim stream initial_locals;; flush trim l;; end_) w1 ()
            (loop_calls ++ flush_calls ++ [End]) (call_sink End w3).2) as (Hrun & Hsink & _).
  { eapply runs_bind; [exact Hloop|]. eapply runs_bind; [exact Hflush|apply runs_call_sink]. }
  exists l', loop_calls, flush_calls, (call_sink End w3).2.
  rewrite Hrun. by split_and!.
Qed.

(** A stream that raises a fault: the loop, then [emitError] in the
    handler. *)
Lemma handleStreamingRequest_faulted
    (provider : Any) (request : string) (tools : list (ToolRequest Any))
    (history : list IChatMessage) (modelId : option string)
    (temperature topP topK : option Js.number) (providerOptions : option Any)
    trim (stream : fullStream Any) w e :
  fault stream = Some e ->
  exists l' loop_calls w',
    handleStreamingRequest provider request tools history modelId temperature topP topK
      providerOptions trim stream w = (Normal (), w')
    /\ sink w' = sink w ++ loop_calls ++ [EmitError e]
    /\ loop_post trim (chunks stream) initial_locals loop_calls l'.
Proof.
  intros Hfault. unfold handleStreamingRequest, try_catch.
  match goal with |- context [streamText ?a] => set (args := a) end.
  unfold bind at 1. cbn [streamText].
  match goal with |- context [bind _ _ ?x] => set (w1 := x) end.
  destruct (for_await_faulted trim stream initial_locals w1 e Hfault)
    as (l' & loop_calls & w2 & Hloop & Hsink & _ & Hpost).
  rewrite (bind_thrown _ _ _ _ _ Hloop).
  exists l', loop_calls, (call_sink (EmitError e) w2).2.
  split_and!; [done| |done]. simpl. rewrite Hsink. by rewrite <- app_assoc.
Qed.

(** The one request a call of [handleStreamingRequest] opens. *)
Lemma handleStreamingRequest_opens
    (provider : Any) (request : string) (tools : list (ToolRequest Any))
    (history : list IChatMessage) (modelId : option string)
    (temperature topP topK : option Js.number) (providerOptions : option Any)
    trim (stream : fullStream Any) w :
  exists a,
    provider_calls
      (handleStreamingRequest provider request tools history modelId temperature topP topK
         providerOptions trim stream w).2 = provider_calls w ++ [a]
    /\ st_tools a
       = fromEntries (map (fun tool => (tr_name tool, convertToolRequestToAITool tool)) tools)
    /\ st_temperature a = temperature
    /\ st_topP a = Js.number_or topP (Js.Num 0.8)
    /\ st_topK a = Js.number_or topK (Js.Num 1).
Proof.
  unfold handleStreamingRequest, try_catch.
  match goal with |- context [streamText ?a] => set (args := a) end.
  exists args. split_and!; try done.
  unfold bind at 1. cbn [streamText].
  match goal with |- context [bind _ _ ?x] => set (w1 := x) end.
  destruct (fault stream) as [e|] eqn:Hfault.
  - destruct (for_await_faulted trim stream initial_locals w1 e Hfault)
      as (l' & loop_calls & w2 & Hloop & _ & Hcalls & _).
    rewrite (bind_thrown _ _ _ _ _ Hloop). simpl. by rewrite Hcalls.
  - destruct (for_await_ended trim stream initial_locals w1 Hfault)
      as (l' & loop_calls & w2 & Hloop & _).
    destruct (flush_runs trim l' w2) as (flush_calls & w3 & Hflush & _).
    assert (runs (l <- for_await trim stream initial_locals;; flush trim l;; end_) w1 ()
              (loop_calls ++ flush_calls ++ [End]) (call_sink End w3).2) as (Hrun & _ & Hcalls).
    { eapply runs_bind; [exact Hloop|]. eapply runs_bind; [exact Hflush|apply runs_call_sink]. }
    rewrite Hrun. simpl in *. by rewrite Hcalls.
Qed.

(** *** The round trip of the specification *)

Lemma substring_of_append (s a b : string) (n k : nat) :
  a +:+ b = String.substring n k s ->
  a = String.substring n (String.length a) s
  /\ b = String.substring (n + String.length a) (k - String.length a) s
  /\ (String.length a <= k)%nat.
Proof.
  revert a b n k. induction s as [|c s IH]; intros a b n k Heq.
  - assert (String.substring n k "" = "") as Hnil by (by destruct n, k).
    rewrite Hnil in Heq. destruct a as [|c a]; [|done].
    change (b = "") in Heq. rewrite Heq.
    split_and!; [by destruct n|by destruct n, k|simpl; lia].
  - destruct n as [|n].
    + destruct a as [|c' a].
      * change (b = String.substring 0 k (String c s)) in Heq. rewrite Heq at 1.
        split_and!; [done| |simpl; lia].
        simpl String.length. by rewrite Nat.sub_0_r.
      * destruct k as [|k]; [done|].
        change (String c' (a +:+ b) = String c (String.substring 0 k s)) in Heq.
        injection Heq as -> Heq.
        destruct (IH a b 0%nat k Heq) as (Ha & Hb & Hlen).
        split_and!; [simpl; by rewrite <- Ha|exact Hb|simpl; lia].
    + change (a +:+ b = String.substring n k s) in Heq.
      destruct (IH a b n k Heq) as (Ha & Hb & Hlen).
      split_and!; [exact Ha|exact Hb|exact Hlen].
Qed.

Lemma round_trip_feed (n m : nat) w :
  (n + m <= 15)%nat ->
  on_text_trimmed "P:" (String.substring n m RoundTrip.text) (RoundTrip.locals_at n) w
  = (Normal (RoundTrip.locals_at (n + m)), w).
Proof.
  intros Hle.
  do 16 (destruct n as [|n];
         [do 16 (destruct m as [|m]; [first [reflexivity|exfalso; lia]|]); exfalso; lia|]).
  exfalso; lia.
Qed.

Lemma round_trip_loop (deltas : list string) (n : nat) w :
  (n <= 15)%nat ->
  concat_text deltas = String.substring n (15 - n) RoundTrip.text ->
  for_chunks RoundTrip.trim (map TextDelta deltas) (RoundTrip.locals_at n) w
  = (Normal (RoundTrip.locals_at 15), w).
Proof.
  revert n w. induction deltas as [|d deltas IH]; intros n w Hn Heq.
  - assert (n = 15%nat) as ->.
    { do 15 (destruct n as [|n]; [vm_compute in Heq; discriminate Heq|]). lia. }
    done.
  - change (d +:+ concat_text deltas = String.substring n (15 - n) RoundTrip.text) in Heq.
    apply substring_of_append in Heq as (Hd & Hrest & Hlen).
    cbn [map for_chunks on_chunk RoundTrip.trim]. unfold bind.
    rewrite Hd, round_trip_feed by lia.
    apply IH; [lia|]. rewrite Hrest. f_equal. lia.
Qed.

Lemma handleStreamingRequest_round_trip
    (provider : Any) (request : string) (tools : list (ToolRequest Any))
    (history : list IChatMessage) (modelId : option string)
    (temperature topP topK : option Js.number) (providerOptions : option Any)
    (deltas : list string) :
  concat_text deltas = RoundTrip.text ->
  sink (handleStreamingRequest provider request tools history modelId temperature topP topK
          providerOptions RoundTrip.trim
          {| chunks := map TextDelta deltas; fault := None |} initial_world).2
  = [EmitData (Content ("hello" +:+ Js.nl)); EmitData (Content "world"); End].
Proof.
  intros Heq. unfold handleStreamingRequest, try_catch, for_await, bind.
  cbn [streamText chunks fault].
  change initial_locals with (RoundTrip.locals_at 0).
  rewrite round_trip_loop; [reflexivity|lia|exact Heq].
Qed.

(** *** Lines fed one delta at a time *)

Lemma split_nl_line (line : string) :
  Js.newline_free line = true ->
  Js.split_nl (line +:+ Js.nl) = [line; ""].
Proof.
  induction line as [|c line IH]; intros Hfree; [done|].
  simpl in Hfree. apply andb_true_iff in Hfree as [Hc Hline].
  apply negb_true_iff in Hc.
  change (String c line +:+ Js.nl) with (String c (line +:+ Js.nl)).
  cbn [Js.split_nl]. by rewrite Hc, (IH Hline).
Qed.

Lemma substring_whole (s : string) : String.substring 0 (String.length s) s = s.
Proof. induction s as [|c s IH]; simpl; [done|by rewrite IH]. Qed.

Lemma substring_from_start (s : string) : Js.substring_from s 0 = s.
Proof.
  unfold Js.substring_from, Js.substring, Js.clamp.
  replace (Z.to_nat (Z.min (Z.max 0 0) (Z.of_nat (String.length s)))) with 0%nat by lia.
  replace (Z.to_nat (Z.min (Z.max (Z.of_nat (String.length s)) 0) (Z.of_nat (String.length s))))
    with (String.length s) by lia.
  rewrite Nat.min_0_l, Nat.max_0_l, Nat.sub_0_r. apply substring_whole.
Qed.

Lemma indexOf_empty (s : string) : Js.indexOf s "" = 0.
Proof. unfold Js.indexOf. by destruct s. Qed.

Lemma on_text_trimmed_line (trim0 line : string) (first : bool) (pending : list string) w :
  Js.newline_free line = true ->
  keeps trim0 (line +:+ Js.nl) ->
  on_text_trimmed trim0 (line +:+ Js.nl)
    {| isFirstChunk := first; bufferedText := ""; pendingLines := pending |} w
  = (q <- send_lines (pending ++ [line]);;
     ret {| isFirstChunk := first && negb (Js.includes (line +:+ Js.nl) trim0);
            bufferedText := ""; pendingLines := q |}) w.
Proof.
  intros Hfree Hkeeps. unfold on_text_trimmed.
  cbn [isFirstChunk bufferedText pendingLines].
  change ("" +:+ (line +:+ Js.nl)) with (line +:+ Js.nl).
  destruct (first && Js.includes (line +:+ Js.nl) trim0) eqn:Hstrip.
  - apply andb_true_iff in Hstrip as [-> Hin].
    destruct Hkeeps as [->|Hout]; [|congruence].
    rewrite Hin, indexOf_empty. cbn [String.length Z.of_nat Z.add].
    rewrite substring_from_start, (split_nl_line _ Hfree). done.
  - rewrite (split_nl_line _ Hfree). cbn [last removelast default].
    destruct first; [|done]. simpl in Hstrip. by rewrite Hstrip.
Qed.

Ltac feed_lines :=
  repeat match goal with
         | H : Forall _ (_ :: _) |- _ => apply Forall_cons in H as [[? ?] H]
         end;
  eexists _, _;
  unfold line_deltas, initial_locals; cbn [map for_chunks on_chunk];
  repeat (unfold bind at 1; rewrite on_text_trimmed_line by assumption; cbn);
  split; [reflexivity|cbn; by rewrite <- ?app_assoc].

Lemma four_lines_loop (trim0 trim1 l1 l2 l3 l4 : string) w :
  Forall (fun line => Js.newline_free line = true /\ keeps trim0 (line +:+ Js.nl))
    [l1; l2; l3; l4] ->
  exists first w',
    for_chunks (Some (trim0, trim1)) (line_deltas [l1; l2; l3; l4]) initial_locals w
    = (Normal {| isFirstChunk := first; bufferedText := ""; pendingLines := [l2; l3; l4] |}, w')
    /\ sink w' = sink w ++ [line_event l1].
Proof. intros Hlines. feed_lines. Qed.

Lemma five_lines_loop (trim0 trim1 l1 l2 l3 l4 l5 : string) w :
  Forall (fun line => Js.newline_free line = true /\ keeps trim0 (line +:+ Js.nl))
    [l1; l2; l3; l4; l5] ->
  exists first w',
    for_chunks (Some (trim0, trim1)) (line_deltas [l1; l2; l3; l4; l5]) initial_locals w
    = (Normal {| isFirstChunk := first; bufferedText := ""; pendingLines := [l3; l4; l5] |}, w')
    /\ sink w' = sink w ++ [line_event l1; line_event l2].
Proof. intros Hlines. feed_lines. Qed.

Lemma loop_lines (trim0 trim1 : string) cs calls l' :
  loop_post (Some (trim0, trim1)) cs initial_locals calls l' ->
  Forall content_is_line calls.
Proof.
  intros Hpost. apply (post_lines _ _ _ _ _ Hpost); [by eexists|by constructor].
Qed.

(** *** Counting calls *)

Lemma no_error_chunk (cs : list (chunk Any)) :
  has_error_chunk cs = false -> List.filter is_error_chunk cs = [].
Proof.
  unfold has_error_chunk. induction cs as [|c cs IH]; simpl; [done|].
  intros Hnone. apply orb_false_iff in Hnone as [-> Hcs]. by apply IH.
Qed.

Lemma filter_none {A : Type} (f : A -> bool) (xs : list A) :
  length (List.filter f xs) = 0%nat -> Forall (fun x => f x = false) xs.
Proof.
  induction xs as [|x xs IH]; simpl; [done|].
  destruct (f x) eqn:Hx; [done|]. intros Hlen. constructor; [done|by apply IH].
Qed.

(** *** The events of the chunks, in full *)

Lemma send_lines_clock (pending : list string) w :
  clock_reads (send_lines pending w).2 = clock_reads w.
Proof.
  revert w. induction pending as [|line rest IH]; intros w; [done|].
  cbn [send_lines]. destruct (3 <? length (line :: rest))%nat; [|done].
  unfold bind. cbn [emitData call_sink]. by rewrite IH.
Qed.




(** *** The request, step by step *)

Lemma handleStreamingRequest_steps
    (provider : Any) (request : string) (tools : list (ToolRequest Any))
    (history : list IChatMessage) (modelId : option string)
    (temperature topP topK : option Js.number) (providerOptions : option Any)
    trim cs w :
  exists w1,
    sink w1 = sink w
    /\ clock_reads w1 = clock_reads w
    /\ forall l' w2 w3,
         for_chunks trim cs initial_locals w1 = (Normal l', w2) ->
         flush trim l' w2 = (Normal (), w3) ->
         sink (handleStreamingRequest provider request tools history modelId temperature topP
                 topK providerOptions trim {| chunks := cs; fault := None |} w).2
         = sink w3 ++ [End].
Proof.
  unfold handleStreamingRequest, try_catch, for_await.
  match goal with |- context [streamText ?a] => set (args := a) end.
  exists (streamText args w).2. split_and!; [done|done|].
  intros l' w2 w3 Hloop Hflush. unfold bind at 1. cbn [streamText snd] in Hloop |- *.
  unfold bind. cbn [chunks fault]. rewrite Hloop. unfold ret. cbv beta iota.
  by rewrite Hflush.
Qed.

(** ** The claims *)

(** C1, which the code does not meet: an [Error] chunk makes the loop
    emit the error and go on; the text delta that follows it reaches the
    sink, and so does [end()]. *)
Theorem C1_error_chunk_does_not_stop
    (provider : Any) (request : string) (tools : list (ToolRequest Any))
    (history : list IChatMessage) (modelId : option string)
    (temperature topP topK : option Js.number) (providerOptions : option Any) :
  sink (handleStreamingRequest provider request tools history modelId temperature topP topK
          providerOptions None
          {| chunks := [ErrorChunk "boom"; TextDelta "late"]; fault := None |}
          initial_world).2
  = [EmitError (JsError "boom"); EmitData (Content "late"); End].
Proof. reflexivity. Qed.


(** C3: with prefix ["P:"] and suffix [":E"], however the text
    ["P:hello\nworld:E"] is cut into deltas, the texts of the [Content]
    events put together are ["hello\nworld"]. *)
Theorem C3_round_trip
    (provider : Any) (request : string) (tools : list (ToolRequest Any))
    (history : list IChatMessage) (modelId : option string)
    (temperature topP topK : option Js.number) (providerOptions : option Any)
    (deltas : list string) :
  concat_text deltas = RoundTrip.text ->
  content_text
    (sink (handleStreamingRequest provider request tools history modelId temperature topP topK
             providerOptions RoundTrip.trim
             {| chunks := map TextDelta deltas; fault := None |} initial_world).2)
  = RoundTrip.expected.
Proof.
  intros Heq.
  by rewrite (handleStreamingRequest_round_trip provider request tools history modelId
                temperature topP topK providerOptions deltas Heq).
Qed.

(** C4, amended: with a trim configuration without suffix, five lines
    fed one delta each (lines the prefix leaves as they are): one line,
    the first, is at the sink before the fifth delta is processed; when
    the request ends the sink has the first two lines, in order, and is
    closed; the last three lines stay in the buffer. *)
Theorem C4_three_lines_retained
    (provider : Any) (request : string) (tools : list (ToolRequest Any))
    (history : list IChatMessage) (modelId : option string)
    (temperature topP topK : option Js.number) (providerOptions : option Any)
    (trim0 l1 l2 l3 l4 l5 : string) :
  Forall (fun line => Js.newline_free line = true /\ keeps trim0 (line +:+ Js.nl))
    [l1; l2; l3; l4; l5] ->
  sink_after (for_chunks (Some (trim0, "")) (line_deltas [l1; l2; l3; l4]) initial_locals)
    initial_world
  = [line_event l1]
  /\ sink (handleStreamingRequest provider request tools history modelId temperature topP topK
             providerOptions (Some (trim0, ""))
             {| chunks := line_deltas [l1; l2; l3; l4; l5]; fault := None |}
             initial_world).2
     = [line_event l1; line_event l2; End].
Proof.
  intros Hlines. split.
  - assert (Forall (fun line => Js.newline_free line = true /\ keeps trim0 (line +:+ Js.nl))
              [l1; l2; l3; l4]) as Hfour.
    { apply (Forall_take _ 4%nat) in Hlines. exact Hlines. }
    destruct (four_lines_loop trim0 "" l1 l2 l3 l4 initial_world Hfour)
      as (first & w' & Hloop & Hsink).
    unfold sink_after. by rewrite Hloop.
  - unfold handleStreamingRequest, try_catch, for_await, bind.
    cbn [streamText chunks fault].
    match goal with |- context [for_chunks _ _ _ ?x] => set (w1 := x) end.
    destruct (five_lines_loop trim0 "" l1 l2 l3 l4 l5 w1 Hlines)
      as (first & w' & Hloop & Hsink).
    rewrite Hloop. cbn. by rewrite Hsink.
Qed.

(** C5: a request whose options carry no client identifier (none, or the
    empty string) is rejected with the error "clientId is required";
    no provider request is opened and nothing is written to the sink:
    the world is left as it was. *)
Theorem C5_missing_clientId_rejected
    (request_text : string) (options : IAIBackServiceOption Any) (stream : fullStream Any) w :
  clientId options = None \/ clientId options = Some "" ->
  request request_text options stream w = (Thrown (JsError "clientId is required"), w).
Proof. intros [Hnone|Hempty]; unfold request; by rewrite ?Hnone, ?Hempty. Qed.

(** C6: when the chunk sequence has no [Error] chunk and ends without a
    fault, the request returns, the last call on the sink is the one
    [end()], and the calls before it are neither [end()] nor errors. *)
Theorem C6_closed_once_at_the_end
    (provider : Any) (request : string) (tools : list (ToolRequest Any))
    (history : list IChatMessage) (modelId : option string)
    (temperature topP topK : option Js.number) (providerOptions : option Any)
    trim cs :
  has_error_chunk cs = false ->
  exists calls w',
    handleStreamingRequest provider request tools history modelId temperature topP topK
      providerOptions trim {| chunks := cs; fault := None |} initial_world
    = (Normal (), w')
    /\ sink w' = calls ++ [End]
    /\ Forall (fun c => is_end c = false /\ is_error c = false) calls.
Proof.
  intros Hnone.
  destruct (handleStreamingRequest_ended provider request tools history modelId temperature
              topP topK providerOptions trim {| chunks := cs; fault := None |}
              initial_world eq_refl)
    as (l' & loop_calls & flush_calls & w' & Hrun & Hsink & Hpost & Hflush & _).
  exists (loop_calls ++ flush_calls), w'. split_and!; [done|by rewrite Hsink, <- app_assoc|].
  apply Forall_app. split.
  - pose proof (post_errors _ _ _ _ _ Hpost) as Herrors.
    cbn [chunks] in Herrors. rewrite (no_error_chunk _ Hnone) in Herrors.
    apply filter_none in Herrors.
    pose proof (post_open _ _ _ _ _ Hpost) as Hopen.
    apply Forall_forall. intros c Hc.
    rewrite Forall_forall in Herrors. rewrite Forall_forall in Hopen. auto.
  - eapply Forall_impl; [exact Hflush|]. by intros [[t|tc]|e|].
Qed.

(** C7: when iterating the chunk sequence raises a fault, the request
    still returns normally; the last call on the sink is [emitError]
    with that fault; the sink is never closed; and the sink has as many
    error events as the sequence had [Error] chunks, plus that one. *)
Theorem C7_fault_becomes_terminal_error
    (provider : Any) (request : string) (tools : list (ToolRequest Any))
    (history : list IChatMessage) (modelId : option string)
    (temperature topP topK : option Js.number) (providerOptions : option Any)
    trim cs (e : exn) :
  exists calls w',
    handleStreamingRequest provider request tools history modelId temperature topP topK
      providerOptions trim {| chunks := cs; fault := Some e |} initial_world
    = (Normal (), w')
    /\ sink w' = calls ++ [EmitError e]
    /\ Forall (fun c => is_end c = false) (sink w')
    /\ length (List.filter is_error (sink w'))
       = S (length (List.filter is_error_chunk cs)).
Proof.
  destruct (handleStreamingRequest_faulted provider request tools history modelId temperature
              topP topK providerOptions trim {| chunks := cs; fault := Some e |}
              initial_world e eq_refl)
    as (l' & loop_calls & w' & Hrun & Hsink & Hpost).
  cbn [initial_world sink app] in Hsink.
  exists loop_calls, w'. rewrite Hsink. split_and!; [done|done| |].
  - apply Forall_app. split; [exact (post_open _ _ _ _ _ Hpost)|by repeat constructor].
  - rewrite List.filter_app, length_app, (post_errors _ _ _ _ _ Hpost). simpl. lia.
Qed.

(** C8: when [noTool] is set, the one request opened with the provider
    carries an empty tool table, whatever the registry holds. *)
Theorem C8_no_tool_empty_table
    (request_text : string) (options : IAIBackServiceOption Any) (stream : fullStream Any)
    (client : string) :
  noTool options = Some true ->
  clientId options = Some client ->
  Js.truthy client = true ->
  exists a,
    provider_calls (request request_text options stream initial_world).2 = [a]
    /\ st_tools a = ∅.
Proof.
  intros HnoTool Hclient Htruthy. unfold request. rewrite Hclient, HnoTool.
  destruct client as [|c client]; [done|].
  match goal with
  | |- context [handleStreamingRequest ?p ?r ?t ?h ?m ?te ?tp ?tk ?po ?tr ?s ?w] =>
      destruct (handleStreamingRequest_opens p r t h m te tp tk po tr s w)
        as (a & Hcalls & Htools & _)
  end.
  exists a. by rewrite Hcalls, Htools.
Qed.

(** C9, amended: for a request with a client identifier, [temperature]
    reaches the provider as the caller gave it (or omitted it); [topP]
    reaches it as the caller gave it when it is given and neither zero
    nor NaN, and as 0.8 when the caller omits it; [topK] likewise, with 1
    when omitted.  Each of the three is forwarded whatever the other
    two are. *)
Theorem C9_sampling_parameters
    (request_text : string) (options : IAIBackServiceOption Any) (stream : fullStream Any)
    (client : string) :
  clientId options = Some client ->
  Js.truthy client = true ->
  exists a,
    provider_calls (request request_text options stream initial_world).2 = [a]
    /\ st_temperature a = temperature options
    /\ (omitted_or_truthy (topP options) = true ->
        st_topP a = caller_or_default (topP options) (Js.Num 0.8))
    /\ (omitted_or_truthy (topK options) = true ->
        st_topK a = caller_or_default (topK options) (Js.Num 1)).
Proof.
  intros Hclient Htruthy. unfold request. rewrite Hclient.
  destruct client as [|c client]; [done|].
  match goal with
  | |- context [handleStreamingRequest ?p ?r ?t ?h ?m ?te ?tp ?tk ?po ?tr ?s ?w] =>
      destruct (handleStreamingRequest_opens p r t h m te tp tk po tr s w)
        as (a & Hcalls & _ & Htemp & HP & HK)
  end.
  exists a. rewrite Hcalls, Htemp, HP, HK. split_and!; [done|done| |].
  - destruct (topP options) as [v|]; [|done]. simpl. by intros ->.
  - destruct (topK options) as [v|]; [|done]. simpl. by intros ->.
Qed.

(** C10: with a trim configuration, every [Content] event the loop emits
    is one completed line: a text without newline followed by one
    newline.  This holds for the calls made while any chunks are
    consumed, and so for the whole sink of a request whose stream breaks
    with a fault, where the flush is never reached. *)
Theorem C10_loop_emits_completed_lines
    (provider : Any) (request : string) (tools : list (ToolRequest Any))
    (history : list IChatMessage) (modelId : option string)
    (temperature topP topK : option Js.number) (providerOptions : option Any)
    (trim0 trim1 : string) cs (e : exn) :
  Forall content_is_line
    (sink_after (for_chunks (Some (trim0, trim1)) cs initial_locals) initial_world)
  /\ Forall content_is_line
       (sink (handleStreamingRequest provider request tools history modelId temperature topP
                topK providerOptions (Some (trim0, trim1))
                {| chunks := cs; fault := Some e |} initial_world).2).
Proof.
  split.
  - destruct (for_chunks_runs (Some (trim0, trim1)) cs initial_locals initial_world)
      as (l' & calls & w' & (Hrun & Hsink & _) & Hpost).
    unfold sink_after. rewrite Hrun. cbn [snd]. rewrite Hsink. cbn [initial_world sink app].
    by apply loop_lines in Hpost.
  - destruct (handleStreamingRequest_faulted provider request tools history modelId temperature
                topP topK providerOptions (Some (trim0, trim1))
                {| chunks := cs; fault := Some e |} initial_world e eq_refl)
      as (l' & loop_calls & w' & -> & Hsink & Hpost).
    cbn [snd]. rewrite Hsink. cbn [initial_world sink app].
    apply Forall_app. split; [|by repeat constructor].
    by apply loop_lines in Hpost.
Qed.

End Properties.

(** ** The claims at concrete inputs *)


(** C3 at one character per delta. *)
Lemma C3_one_character_per_delta :
  concat_text (Sample.characters RoundTrip.text) = RoundTrip.text
  /\ content_text
       (sink (handleStreamingRequest "provider" "hi" [] [] None None None None None
                RoundTrip.trim
                {| chunks := map TextDelta (Sample.characters RoundTrip.text); fault := None |}
                initial_world).2)
     = RoundTrip.expected.
Proof.
  split; [reflexivity|].
  apply (C3_round_trip "provider" "hi" [] [] None None None None None
           (Sample.characters RoundTrip.text)).
  reflexivity.
Defined.

(** C4 as stated fails: of five lines, one is at the sink before the
    fifth delta is processed, and two when the request has ended. *)
Lemma C4_only_two_lines_reach_the_sink :
  contents
    (sink_after
       (for_chunks (Some ("P:", "")) (line_deltas ["one"; "two"; "three"; "four"])
          initial_locals)
       (initial_world (Any:=string)))
  = ["one" +:+ Js.nl]
  /\ sink (Sample.handle None None (Some ("P:", ""))
             (Sample.ended (line_deltas ["one"; "two"; "three"; "four"; "five"]))
             initial_world).2
     = [line_event "one"; line_event "two"; End].
Proof. split; reflexivity. Qed.

(** C4, amended, at five lines. *)
Lemma C4_five_sample_lines :
  Forall (fun line => Js.newline_free line = true /\ keeps "P:" (line +:+ Js.nl))
    ["one"; "two"; "three"; "four"; "five"]
  /\ sink_after
       (for_chunks (Some ("P:", "")) (line_deltas ["one"; "two"; "three"; "four"])
          initial_locals)
       (initial_world (Any:=string))
     = [line_event "one"]
  /\ sink (handleStreamingRequest "provider" "hi" [] [] None None None None None
             (Some ("P:", ""))
             {| chunks := line_deltas ["one"; "two"; "three"; "four"; "five"]; fault := None |}
             initial_world).2
     = [line_event "one"; line_event "two"; End].
Proof.
  assert (Forall (fun line => Js.newline_free line = true /\ keeps "P:" (line +:+ Js.nl))
            ["one"; "two"; "three"; "four"; "five"]) as Hlines.
  { repeat constructor; right; reflexivity. }
  split; [exact Hlines|].
  exact (C4_three_lines_retained "provider" "hi" [] [] None None None None None
           "P:" "one" "two" "three" "four" "five" Hlines).
Defined.

(** C5 at options without a client identifier. *)
Lemma C5_no_client_sample :
  clientId Sample.no_client = None
  /\ request "hi" Sample.no_client (Sample.ended [TextDelta "x"]) initial_world
     = (Thrown (JsError "clientId is required"), initial_world).
Proof.
  split; [reflexivity|].
  apply (C5_missing_clientId_rejected "hi" Sample.no_client (Sample.ended [TextDelta "x"])
           initial_world).
  left. reflexivity.
Defined.

(** C6 at a text delta followed by a tool call. *)
Lemma C6_sample_stream_closed :
  has_error_chunk Sample.text_then_tool = false
  /\ exists calls w',
       handleStreamingRequest "provider" "hi" [] [] None None None None None None
         {| chunks := Sample.text_then_tool; fault := None |}
         initial_world
       = (Normal (), w')
       /\ sink w' = calls ++ [End]
       /\ Forall (fun c => is_end c = false /\ is_error c = false) calls.
Proof.
  split; [reflexivity|].
  apply (C6_closed_once_at_the_end "provider" "hi" [] [] None None None None None None
           Sample.text_then_tool).
  reflexivity.
Defined.

(** C8 at a client whose registry holds a tool. *)
Lemma C8_no_tool_sample :
  getAllFunctions "client-1" = [Sample.lookup_tool]
  /\ exists a,
       provider_calls (request "hi" Sample.no_tool (Sample.ended []) initial_world).2 = [a]
       /\ st_tools a = ∅.
Proof.
  split; [reflexivity|].
  apply (C8_no_tool_empty_table "hi" Sample.no_tool (Sample.ended []) "client-1");
    reflexivity.
Defined.

(** C9 as stated fails: a [topP] and a [topK] of zero are given, and the
    provider gets 0.8 and 1. *)
Lemma C9_zero_is_replaced :
  exists a,
    provider_calls
      (Sample.handle (Some (Js.Num 0)) (Some (Js.Num 0)) None (Sample.ended [])
         initial_world).2 = [a]
    /\ st_topP a = Js.Num 0.8
    /\ st_topK a = Js.Num 1
    /\ st_topP a <> caller_or_default (Some (Js.Num 0)) (Js.Num 0.8)
    /\ st_topK a <> caller_or_default (Some (Js.Num 0)) (Js.Num 1).
Proof. eexists. split_and!; [reflexivity|reflexivity|reflexivity|discriminate|discriminate]. Qed.

(** C9, amended, at a [topP] of zero beside a [topK] of 40 and a
    [temperature] of 0.7. *)
Lemma C9_mixed_sampling_sample :
  clientId Sample.mixed_sampling = Some "client-1"
  /\ Js.truthy "client-1" = true
  /\ exists a,
       provider_calls
         (request "hi" Sample.mixed_sampling (Sample.ended []) initial_world).2 = [a]
       /\ st_temperature a = Some (Js.Num 0.7)
       /\ (omitted_or_truthy (Some (Js.Num 0)) = true ->
           st_topP a = caller_or_default (Some (Js.Num 0)) (Js.Num 0.8))
       /\ (omitted_or_truthy (Some (Js.Num 40)) = true ->
           st_topK a = caller_or_default (Some (Js.Num 40)) (Js.Num 1)).
Proof.
  split; [reflexivity|]. split; [reflexivity|].
  apply (C9_sampling_parameters "hi" Sample.mixed_sampling (Sample.ended []) "client-1");
    reflexivity.
Defined.

(** ** Further properties *)

Section MoreProperties.

Context {Any : Type} `{!Host Any, !BaseLanguageModel Any}.

Implicit Types (w : world Any) (l : locals) (cs : list (chunk Any)).
Implicit Types (calls : list (sink_call Any)) (trim : option (string * string)).

(** *** Strings *)

Lemma append_empty_r (s : string) : s +:+ "" = s.
Proof. induction s as [|c s IH]; [done|]. change (String c (s +:+ "") = String c s). by rewrite IH. Qed.

Lemma append_assoc (a b c : string) : (a +:+ b) +:+ c = a +:+ (b +:+ c).
Proof.
  induction a as [|x a IH]; [done|].
  change (String x ((a +:+ b) +:+ c) = String x (a +:+ (b +:+ c))). by rewrite IH.
Qed.

Lemma append_length (a b : string) :
  String.length (a +:+ b) = (String.length a + String.length b)%nat.
Proof.
  induction a as [|x a IH]; [done|].
  change (S (String.length (a +:+ b)) = S (String.length a + String.length b)). by rewrite IH.
Qed.

Lemma append_eq_append (a b c d : string) :
  a +:+ b = c +:+ d ->
  (exists z, a = c +:+ z /\ d = z +:+ b)
  \/ (exists z, z <> "" /\ c = a +:+ z /\ b = z +:+ d).
Proof.
  revert c. induction a as [|x a IH]; intros c Heq.
  - change (b = c +:+ d) in Heq. destruct c as [|y c].
    + left. exists "". split; [reflexivity|]. symmetry. exact Heq.
    + right. exists (String y c). split_and!; [done|reflexivity|exact Heq].
  - destruct c as [|y c].
    + left. exists (String x a). split; [reflexivity|]. symmetry. exact Heq.
    + change (String x (a +:+ b) = String y (c +:+ d)) in Heq.
      injection Heq as -> Heq.
      destruct (IH c Heq) as [(z & -> & ->)|(z & Hz & -> & ->)].
      * left. by exists z.
      * right. by exists z.
Qed.

Lemma substring_append_l (a b : string) : String.substring 0 (String.length a) (a +:+ b) = a.
Proof.
  induction a as [|x a IH]; [by destruct b|].
  change (String x (String.substring 0 (String.length a) (a +:+ b)) = String x a).
  by rewrite IH.
Qed.

Lemma substring_append_r (a b : string) :
  String.substring (String.length a) (String.length b) (a +:+ b) = b.
Proof.
  induction a as [|x a IH]; [apply substring_whole|exact IH].
Qed.

Lemma startsWith_append (p x : string) : Js.startsWith (p +:+ x) p = true.
Proof.
  induction p as [|c p IH]; [by destruct x|].
  change (Js.startsWith (String c (p +:+ x)) (String c p) = true).
  cbn [Js.startsWith]. by rewrite Ascii.eqb_refl.
Qed.

Lemma startsWith_inv (s p : string) :
  Js.startsWith s p = true -> exists x, s = p +:+ x.
Proof.
  revert s. induction p as [|c p IH]; intros s Hs; [by exists s|].
  destruct s as [|a s]; [done|]. cbn [Js.startsWith] in Hs.
  destruct (Ascii.eqb a c) eqn:Hac; [|done]. apply Ascii.eqb_eq in Hac as ->.
  destruct (IH s Hs) as [x ->]. by exists x.
Qed.

Lemma indexOf_from_found (s p : string) (i : Z) :
  Js.indexOf_from s p i <> -1 -> exists a b, s = a +:+ p +:+ b.
Proof.
  revert i. induction s as [|c s IH]; intros i Hfound; cbn [Js.indexOf_from] in Hfound.
  - destruct (Js.startsWith "" p) eqn:Hp; [|done].
    apply startsWith_inv in Hp as [x Hx]. by exists "", x.
  - destruct (Js.startsWith (String c s) p) eqn:Hp.
    + apply startsWith_inv in Hp as [x Hx]. by exists "", x.
    + destruct (IH (i + 1) Hfound) as (a & b & ->). by exists (String c a), b.
Qed.

Lemma indexOf_from_occurs (a p b : string) (i : Z) :
  0 <= i -> Js.indexOf_from (a +:+ p +:+ b) p i <> -1.
Proof.
  revert i. induction a as [|c a IH]; intros i Hi.
  - change ("" +:+ p +:+ b) with (p +:+ b).
    destruct (p +:+ b) eqn:Heq; cbn [Js.indexOf_from];
      rewrite <- Heq, startsWith_append; lia.
  - change (String c a +:+ p +:+ b) with (String c (a +:+ p +:+ b)).
    cbn [Js.indexOf_from]. destruct (Js.startsWith _ p); [lia|]. apply IH. lia.
Qed.

Lemma includes_iff (s p : string) :
  Js.includes s p = true <-> exists a b, s = a +:+ p +:+ b.
Proof.
  unfold Js.includes, Js.indexOf. rewrite negb_true_iff, Z.eqb_neq. split.
  - apply indexOf_from_found.
  - intros (a & b & ->). by apply indexOf_from_occurs.
Qed.

Lemma includes_shorter (s p : string) :
  (String.length s < String.length p)%nat -> Js.includes s p = false.
Proof.
  intros Hlen. destruct (Js.includes s p) eqn:Hin; [|done].
  apply includes_iff in Hin as (a & b & ->). rewrite !append_length in Hlen. lia.
Qed.

Lemma includes_inside (x s y p : string) :
  Js.includes (x +:+ s +:+ y) p = false -> Js.includes s p = false.
Proof.
  intros Hout. destruct (Js.includes s p) eqn:Hin; [|done].
  apply includes_iff in Hin as (a & b & ->).
  assert (Js.includes (x +:+ (a +:+ p +:+ b) +:+ y) p = true) as Hyes; [|congruence].
  apply includes_iff. exists (x +:+ a), (b +:+ y). by rewrite !append_assoc.
Qed.

Lemma indexOf_at_start (p x : string) : Js.indexOf (p +:+ x) p = 0.
Proof.
  unfold Js.indexOf. destruct (p +:+ x) eqn:Heq; cbn [Js.indexOf_from];
    by rewrite <- Heq, startsWith_append.
Qed.

Lemma substring_from_append (p x : string) :
  Js.substring_from (p +:+ x) (0 + Z.of_nat (String.length p)) = x.
Proof.
  unfold Js.substring_from, Js.substring, Js.clamp. rewrite append_length.
  replace (Z.to_nat (Z.min (Z.max (0 + Z.of_nat (String.length p)) 0)
                       (Z.of_nat (String.length p + String.length x))))
    with (String.length p) by lia.
  replace (Z.to_nat (Z.min (Z.max (Z.of_nat (String.length p + String.length x)) 0)
                       (Z.of_nat (String.length p + String.length x))))
    with (String.length p + String.length x)%nat by lia.
  rewrite Nat.min_l, Nat.max_r by lia.
  replace (String.length p + String.length x - String.length p)%nat
    with (String.length x) by lia.
  apply substring_append_r.
Qed.

(** *** Lines *)

Lemma split_nl_cons (s : string) : exists piece pieces, Js.split_nl s = piece :: pieces.
Proof.
  destruct s as [|c s]; cbn [Js.split_nl]; [by eexists _, _|].
  destruct (Ascii.eqb c Js.newline); [by eexists _, _|].
  destruct (Js.split_nl s); by eexists _, _.
Qed.

Lemma split_nl_append (a b : string) :
  Js.split_nl (a +:+ b) = Lines.lines_of a ++ Js.split_nl (Lines.tail_of a +:+ b).
Proof.
  unfold Lines.lines_of, Lines.tail_of. induction a as [|c a IH]; [done|].
  change (String c a +:+ b) with (String c (a +:+ b)). cbn [Js.split_nl].
  destruct (split_nl_cons a) as (piece & pieces & Ha). rewrite Ha in IH |- *.
  destruct (Ascii.eqb c Js.newline) eqn:Hc.
  - rewrite IH. by destruct pieces.
  - rewrite IH. destruct pieces as [|piece' pieces].
    + cbn [removelast last default from_option app]. unfold id.
      change (String c piece +:+ b) with (String c (piece +:+ b)).
      cbn [Js.split_nl]. by rewrite Hc.
    + done.
Qed.

Lemma split_nl_free (s : string) : Js.newline_free s = true -> Js.split_nl s = [s].
Proof.
  induction s as [|c s IH]; [done|]. cbn [Js.newline_free Js.split_nl].
  intros Hfree. apply andb_true_iff in Hfree as [Hc Hs]. apply negb_true_iff in Hc.
  by rewrite Hc, (IH Hs).
Qed.

Lemma newline_free_append (a b : string) :
  Js.newline_free (a +:+ b) = Js.newline_free a && Js.newline_free b.
Proof.
  induction a as [|c a IH]; [done|].
  change (String c a +:+ b) with (String c (a +:+ b)). cbn [Js.newline_free].
  by rewrite IH, andb_assoc.
Qed.

Lemma tail_of_free (text : string) : Js.newline_free (Lines.tail_of text) = true.
Proof.
  unfold Lines.tail_of. pose proof (split_nl_newline_free text) as Hall.
  destruct (last (Js.split_nl text)) as [piece|] eqn:Hlast; [|done].
  apply last_Some_elem_of in Hlast. rewrite Forall_forall in Hall. by apply Hall.
Qed.

Lemma lines_of_free (text : string) : newline_free_lines (Lines.lines_of text).
Proof. apply removelast_Forall, split_nl_newline_free. Qed.

Lemma lines_of_append (a b : string) :
  Lines.lines_of (a +:+ b) = Lines.lines_of a ++ Lines.lines_of (Lines.tail_of a +:+ b).
Proof.
  unfold Lines.lines_of at 1. rewrite split_nl_append.
  destruct (split_nl_cons (Lines.tail_of a +:+ b)) as (piece & pieces & Hs).
  rewrite removelast_app by (by rewrite Hs). done.
Qed.

Lemma tail_of_append (a b : string) :
  Lines.tail_of (a +:+ b) = Lines.tail_of (Lines.tail_of a +:+ b).
Proof.
  unfold Lines.tail_of at 1. rewrite split_nl_append, last_app.
  destruct (split_nl_cons (Lines.tail_of a +:+ b)) as (piece & pieces & Hs).
  unfold Lines.tail_of at 2. destruct (last (Js.split_nl _)) eqn:Hlast; [done|].
  apply last_None in Hlast. congruence.
Qed.

Lemma lines_of_append_free (a b : string) :
  Js.newline_free b = true ->
  Lines.lines_of (a +:+ b) = Lines.lines_of a
  /\ Lines.tail_of (a +:+ b) = Lines.tail_of a +:+ b.
Proof.
  intros Hb.
  assert (Js.split_nl (Lines.tail_of a +:+ b) = [Lines.tail_of a +:+ b]) as Hs.
  { apply split_nl_free. by rewrite newline_free_append, tail_of_free, Hb. }
  split.
  - rewrite lines_of_append. unfold Lines.lines_of at 2. rewrite Hs. apply app_nil_r.
  - rewrite tail_of_append. unfold Lines.tail_of at 1. by rewrite Hs.
Qed.

Lemma lines_of_append_newline (a : string) :
  Lines.lines_of (a +:+ Js.nl) = Lines.lines_of a ++ [Lines.tail_of a]
  /\ Lines.tail_of (a +:+ Js.nl) = "".
Proof.
  pose proof (split_nl_line _ (tail_of_free a)) as Hs. split.
  - rewrite lines_of_append. unfold Lines.lines_of at 2. by rewrite Hs.
  - rewrite tail_of_append. unfold Lines.tail_of at 1. by rewrite Hs.
Qed.

Lemma concat_text_app (xs ys : list string) :
  concat_text (xs ++ ys) = concat_text xs +:+ concat_text ys.
Proof.
  induction xs as [|x xs IH]; [done|].
  change (x +:+ concat_text (xs ++ ys) = (x +:+ concat_text xs) +:+ concat_text ys).
  by rewrite IH, append_assoc.
Qed.

Lemma lines_text_app (xs ys : list string) :
  Lines.lines_text (xs ++ ys) = Lines.lines_text xs +:+ Lines.lines_text ys.
Proof. unfold Lines.lines_text. by rewrite map_app, concat_text_app. Qed.

(** A text is its completed lines followed by its tail. *)
Lemma lines_and_tail (text : string) :
  Lines.lines_text (Lines.lines_of text) +:+ Lines.tail_of text = text.
Proof.
  unfold Lines.lines_of, Lines.tail_of. induction text as [|c text IH]; [done|].
  cbn [Js.split_nl]. destruct (split_nl_cons text) as (piece & pieces & Ht).
  rewrite Ht in IH |- *. destruct (Ascii.eqb c Js.newline) eqn:Hc.
  - apply Ascii.eqb_eq in Hc as ->.
    transitivity (String Js.newline
                    (Lines.lines_text (removelast (piece :: pieces))
                     +:+ default "" (last (piece :: pieces)))); [|by rewrite IH].
    by destruct pieces.
  - destruct pieces as [|piece' pieces].
    + cbn in IH |- *. by rewrite <- IH.
    + transitivity (String c
                      (Lines.lines_text (removelast (piece :: piece' :: pieces))
                       +:+ default "" (last (piece :: piece' :: pieces)))); [|by rewrite IH].
      done.
Qed.

(** Releasing all but three lines, one batch after another. *)
Lemma release_in_batches {A : Type} (old new : list A) :
  let kept := drop (length old - 3) old ++ new in
  take (length (old ++ new) - 3) (old ++ new)
  = take (length old - 3) old ++ take (length kept - 3) kept
  /\ drop (length (old ++ new) - 3) (old ++ new) = drop (length kept - 3) kept.
Proof.
  intros kept.
  assert (old ++ new = take (length old - 3) old ++ kept) as Hsplit.
  { unfold kept. by rewrite app_assoc, take_drop. }
  assert (length kept = (length old - (length old - 3) + length new)%nat) as Hkept.
  { unfold kept. by rewrite length_app, length_drop. }
  assert (length (take (length old - 3) old) = (length old - 3)%nat) as Htake.
  { rewrite length_take. lia. }
  rewrite Hsplit at 2 4. rewrite length_app.
  replace (length old + length new - 3)%nat
    with (length (take (length old - 3) old) + (length kept - 3))%nat by lia.
  by rewrite take_app_add, drop_app_add.
Qed.

(** *** Reading the texts off a log *)

Lemma contents_app calls1 calls2 : contents (calls1 ++ calls2) = contents calls1 ++ contents calls2.
Proof.
  induction calls1 as [|c calls1 IH]; [done|].
  destruct c as [[t|tc]|e|]; simpl; by rewrite ?IH.
Qed.

Lemma contents_line_events (lines : list string) :
  contents (map (line_event (Any:=Any)) lines) = map Lines.with_newline lines.
Proof. induction lines as [|line lines IH]; [done|]. simpl. by rewrite IH. Qed.

Lemma content_text_contents calls : content_text calls = concat_text (contents calls).
Proof.
  induction calls as [|c calls IH]; [done|].
  destruct c as [[t|tc]|e|]; simpl; by rewrite ?IH.
Qed.

(** *** Chunks that carry no text *)

Lemma on_chunk_silent trim (c : chunk Any) l w :
  (forall t, c <> TextDelta t) ->
  exists w',
    on_chunk trim c l w = (Normal l, w')
    /\ contents (sink w') = contents (sink w).
Proof.
  intros Hc.
  destruct c as [t|toolCallId toolName args| | | | |]; [by destruct (Hc t)| |..];
    try (eexists; split; [reflexivity|]; cbn; rewrite contents_app; cbn; by rewrite app_nil_r).
  - cbn [on_chunk]. destruct (Js.truthy toolCallId);
      (eexists; split; [reflexivity|]; cbn; rewrite contents_app; cbn; by rewrite app_nil_r).
  - by exists w.
Qed.

Lemma text_or_silent (c : chunk Any) :
  (exists t, c = TextDelta t) \/ ((forall t, c <> TextDelta t) /\ chunk_text c = "").
Proof. destruct c; first [left; by eexists|right; by split]. Qed.

(** *** The trim filter once the prefix is out of the way *)

Lemma steady_delta (p d : string) (first : bool) (X : string) w :
  first = false \/ p = "" \/ Js.includes (Lines.tail_of X +:+ d) p = false ->
  exists first' w' batch,
    on_text_trimmed p d
      {| isFirstChunk := first; bufferedText := Lines.tail_of X;
         pendingLines := Lines.retained X |} w
    = (Normal {| isFirstChunk := first'; bufferedText := Lines.tail_of (X +:+ d);
                 pendingLines := Lines.retained (X +:+ d) |}, w')
    /\ (first = false -> first' = false)
    /\ sink w' = sink w ++ map line_event batch
    /\ Lines.released (X +:+ d) = Lines.released X ++ batch.
Proof.
  intros Hquiet. unfold on_text_trimmed. cbn [isFirstChunk bufferedText pendingLines].
  set (buffer := Lines.tail_of X +:+ d).
  assert (exists first',
            (if first && Js.includes buffer p
             then (Js.substring_from buffer
                     (Js.indexOf buffer p + Z.of_nat (String.length p)), false)
             else (buffer, first)) = (buffer, first')
            /\ (first = false -> first' = false)) as (first' & -> & Hfirst).
  { destruct (first && Js.includes buffer p) eqn:Hstrip; [|by exists first].
    apply andb_true_iff in Hstrip as [-> Hin].
    destruct Hquiet as [?|[->|Hout]]; [done| |unfold buffer in Hin; congruence].
    exists false. by rewrite indexOf_empty, substring_from_start. }
  change (removelast (Js.split_nl buffer)) with (Lines.lines_of buffer).
  change (default "" (last (Js.split_nl buffer))) with (Lines.tail_of buffer).
  destruct (send_lines_runs (Lines.retained X ++ Lines.lines_of buffer) w)
    as (w' & Hsend & Hsink & _).
  destruct (release_in_batches (Lines.lines_of X) (Lines.lines_of buffer)) as [Htake Hdrop].
  exists first', w', (take (length (Lines.retained X ++ Lines.lines_of buffer) - 3)
                        (Lines.retained X ++ Lines.lines_of buffer)).
  unfold bind. rewrite Hsend. unfold ret.
  unfold Lines.released at 1, Lines.retained at 3.
  rewrite (lines_of_append X d), (tail_of_append X d). fold buffer.
  rewrite Hdrop, Htake. by split_and!.
Qed.

Lemma steady_loop (p s : string) cs (first : bool) (X : string) w :
  first = false \/ p = "" \/ Js.includes (X +:+ text_of_chunks cs) p = false ->
  exists first' w' batch,
    for_chunks (Some (p, s)) cs
      {| isFirstChunk := first; bufferedText := Lines.tail_of X;
         pendingLines := Lines.retained X |} w
    = (Normal {| isFirstChunk := first';
                 bufferedText := Lines.tail_of (X +:+ text_of_chunks cs);
                 pendingLines := Lines.retained (X +:+ text_of_chunks cs) |}, w')
    /\ contents (sink w') = contents (sink w) ++ map Lines.with_newline batch
    /\ Lines.released (X +:+ text_of_chunks cs) = Lines.released X ++ batch.
Proof.
  revert first X w. induction cs as [|c cs IH]; intros first X w Hquiet.
  - exists first, w, []. change (text_of_chunks []) with "".
    rewrite append_empty_r, !app_nil_r. done.
  - destruct (text_or_silent c) as [[d ->]|[Hother Hsilent]].
    + change (text_of_chunks (TextDelta d :: cs)) with (d +:+ text_of_chunks cs) in *.
      rewrite <- append_assoc in *.
      destruct (steady_delta p d first X w) as (first1 & w1 & batch1 & Hstep & Hfirst & Hsink & Hrel).
      { destruct Hquiet as [?|[?|Hout]]; [by left|by right; left|]. right. right.
        rewrite <- (lines_and_tail X), !append_assoc in Hout.
        rewrite <- (append_assoc (Lines.tail_of X) d) in Hout.
        by apply includes_inside in Hout. }
      destruct (IH first1 (X +:+ d) w1) as (first2 & w2 & batch2 & Hloop & Hsink2 & Hrel2).
      { destruct Hquiet as [?|[?|Hout]]; [left; by apply Hfirst|by right; left|by right; right]. }
      exists first2, w2, (batch1 ++ batch2). cbn [for_chunks on_chunk]. unfold bind.
      rewrite Hstep, Hloop, Hsink2, Hsink, contents_app, contents_line_events.
      rewrite Hrel2, Hrel, map_app, !app_assoc. done.
    + destruct (on_chunk_silent (Some (p, s)) c
                  {| isFirstChunk := first; bufferedText := Lines.tail_of X;
                     pendingLines := Lines.retained X |} w) as (w1 & Hstep & Hsink).
      { exact Hother. }
      assert (text_of_chunks (c :: cs) = text_of_chunks cs) as Htext.
      { change (chunk_text c +:+ text_of_chunks cs = text_of_chunks cs). by rewrite Hsilent. }
      rewrite Htext in *.
      destruct (IH first X w1 Hquiet) as (first2 & w2 & batch2 & Hloop & Hsink2 & Hrel2).
      exists first2, w2, batch2. cbn [for_chunks]. unfold bind.
      by rewrite Hstep, Hloop, Hsink2, Hsink.
Qed.

(** *** The trim filter while the prefix arrives *)

Lemma append_empty_inv (a b : string) : a +:+ b = "" -> a = "" /\ b = "".
Proof.
  destruct a as [|x a]; intros Heq; [change (b = "") in Heq; by subst|].
  change (String x (a +:+ b) = "") in Heq. done.
Qed.

(** The delta that completes the prefix: what follows the prefix is
    treated as a first delta after it. *)
Lemma prefix_found (p c d z : string) w :
  c +:+ d = p +:+ z ->
  on_text_trimmed p d {| isFirstChunk := true; bufferedText := c; pendingLines := [] |} w
  = on_text_trimmed p z {| isFirstChunk := false; bufferedText := ""; pendingLines := [] |} w.
Proof.
  intros Heq. unfold on_text_trimmed. cbn [isFirstChunk bufferedText pendingLines].
  rewrite Heq. change ("" +:+ z) with z.
  assert (Js.includes (p +:+ z) p = true) as ->.
  { apply includes_iff. by exists "", z. }
  by rewrite indexOf_at_start, substring_from_append.
Qed.

(** A delta that leaves the prefix incomplete is kept in the buffer. *)
Lemma prefix_pending (p c d z : string) w :
  Js.newline_free p = true ->
  z <> "" ->
  p = (c +:+ d) +:+ z ->
  on_text_trimmed p d {| isFirstChunk := true; bufferedText := c; pendingLines := [] |} w
  = (Normal {| isFirstChunk := true; bufferedText := c +:+ d; pendingLines := [] |}, w).
Proof.
  intros Hfree Hz Hp. unfold on_text_trimmed. cbn [isFirstChunk bufferedText pendingLines].
  rewrite includes_shorter.
  - rewrite Hp, newline_free_append in Hfree. apply andb_true_iff in Hfree as [Hcd _].
    cbn [andb]. by rewrite (split_nl_free _ Hcd).
  - rewrite Hp, !append_length. destruct z; [done|]. cbn [String.length]. lia.
Qed.

Lemma prefix_loop (p s : string) cs (c q Y : string) w :
  Js.newline_free p = true ->
  p = c +:+ q ->
  q <> "" \/ c = "" ->
  text_of_chunks cs = q +:+ Y ->
  exists l' w',
    for_chunks (Some (p, s)) cs
      {| isFirstChunk := true; bufferedText := c; pendingLines := [] |} w
    = (Normal l', w')
    /\ bufferedText l' = Lines.tail_of Y
    /\ pendingLines l' = Lines.retained Y
    /\ contents (sink w') = contents (sink w) ++ map Lines.with_newline (Lines.released Y).
Proof.
  intros Hfree. revert c q w. induction cs as [|ch cs IH]; intros c q w Hp Hq Htext.
  - symmetry in Htext. apply append_empty_inv in Htext as [-> ->].
    destruct Hq as [?| ->]; [done|]. eexists _, w. split_and!; try reflexivity.
    by rewrite app_nil_r.
  - destruct (text_or_silent ch) as [[d ->]|[Hother Hsilent]].
    + change (text_of_chunks (TextDelta d :: cs)) with (d +:+ text_of_chunks cs) in Htext.
      cbn [for_chunks on_chunk]. unfold bind.
      apply append_eq_append in Htext as [(z & -> & ->)|(z & Hz & -> & Hrest)].
      * rewrite (prefix_found p c (q +:+ z) z) by (by rewrite Hp, append_assoc).
        destruct (steady_delta p z false "" w (or_introl eq_refl))
          as (first1 & w1 & batch1 & Hstep & Hfirst & Hsink1 & Hrel1).
        rewrite (Hfirst eq_refl) in Hstep.
        change (Lines.tail_of "") with "" in Hstep.
        change (Lines.retained "") with (@nil string) in Hstep.
        change (Lines.released "") with (@nil string) in Hrel1.
        change ("" +:+ z) with z in *.
        rewrite Hstep.
        destruct (steady_loop p s cs false z w1 (or_introl eq_refl))
          as (first2 & w2 & batch2 & Hloop & Hsink2 & Hrel2).
        eexists _, w2. split; [exact Hloop|]. cbn [bufferedText pendingLines].
        split_and!; [done|done|].
        rewrite Hsink2, Hsink1, contents_app, contents_line_events, Hrel2, Hrel1.
        by rewrite map_app, app_assoc.
      * rewrite (prefix_pending p c d z); [|done|done|by rewrite Hp, append_assoc].
        apply (IH (c +:+ d) z w); [by rewrite Hp, append_assoc|by left|exact Hrest].
    + destruct (on_chunk_silent (Some (p, s)) ch
                  {| isFirstChunk := true; bufferedText := c; pendingLines := [] |} w Hother)
        as (w1 & Hstep & Hsink).
      assert (text_of_chunks (ch :: cs) = text_of_chunks cs) as Hsame.
      { change (chunk_text ch +:+ text_of_chunks cs = text_of_chunks cs). by rewrite Hsilent. }
      rewrite Hsame in Htext.
      destruct (IH c q w1 Hp Hq Htext) as (l' & w' & Hloop & Hbuf & Hpend & Hcontents).
      exists l', w'. cbn [for_chunks]. unfold bind. rewrite Hstep, Hloop.
      split_and!; try done. by rewrite Hcontents, Hsink.
Qed.

(** *** The flush, as text *)

Lemma send_remaining_contents (pending : list string) w :
  exists w',
    send_remaining pending w = (Normal (), w')
    /\ contents (sink w')
       = contents (sink w) ++ map Lines.with_newline (removelast pending)
         ++ match last pending with Some line => [line] | None => [] end
    /\ provider_calls w' = provider_calls w.
Proof.
  revert w. induction pending as [|line rest IH]; intros w.
  - exists w. by rewrite app_nil_r.
  - cbn [send_remaining]. destruct rest as [|line' rest].
    + eexists. split; [reflexivity|]. cbn. by rewrite contents_app.
    + destruct (IH (call_sink (EmitData (Content (line +:+ Js.nl))) w).2)
        as (w' & Hrun & Hcontents & Hcalls).
      exists w'. unfold bind. cbn [emitData call_sink snd sink provider_calls] in *.
      rewrite Hrun. split_and!; [done| |done].
      rewrite Hcontents, contents_app, last_cons_cons.
      change (removelast (line :: line' :: rest)) with (line :: removelast (line' :: rest)).
      cbn [map contents app]. by rewrite <- !app_assoc.
Qed.

Lemma insert_last {A : Type} (xs : list A) (x y : A) :
  <[(length (xs ++ [x]) - 1)%nat := y]> (xs ++ [x]) = xs ++ [y].
Proof.
  rewrite length_app. cbn [length].
  replace (length xs + 1 - 1)%nat with (length xs + 0)%nat by lia.
  by rewrite insert_app_r.
Qed.

Lemma endsWith_append (a b : string) : Js.endsWith (a +:+ b) b = true.
Proof.
  unfold Js.endsWith. rewrite append_length. apply andb_true_iff. split.
  - apply Nat.leb_le. lia.
  - replace (String.length a + String.length b - String.length b)%nat
      with (String.length a) by lia.
    rewrite substring_append_r. apply String.eqb_refl.
Qed.

Lemma substring_without_suffix (a b : string) :
  Js.substring (a +:+ b) 0
    (Z.of_nat (String.length (a +:+ b)) - Z.of_nat (String.length b)) = a.
Proof.
  unfold Js.substring, Js.clamp. rewrite append_length.
  replace (Z.to_nat (Z.min (Z.max 0 0) (Z.of_nat (String.length a + String.length b))))
    with 0%nat by lia.
  replace (Z.to_nat
             (Z.min (Z.max (Z.of_nat (String.length a + String.length b)
                            - Z.of_nat (String.length b)) 0)
                (Z.of_nat (String.length a + String.length b))))
    with (String.length a) by lia.
  rewrite Nat.min_0_l, Nat.max_0_l, Nat.sub_0_r. apply substring_append_l.
Qed.

(** The flush when the text to come out ends with [lines ++ [body ++ suffix]]:
    the suffix is cut off the last line, which gets no newline. *)
Lemma flush_cuts_suffix (p s : string) (lines : list string) (body : string) l w :
  Js.truthy s = true ->
  (if Js.truthy (bufferedText l) then pendingLines l ++ [bufferedText l] else pendingLines l)
  = lines ++ [body +:+ s] ->
  exists w',
    flush (Some (p, s)) l w = (Normal (), w')
    /\ contents (sink w') = contents (sink w) ++ map Lines.with_newline lines ++ [body].
Proof.
  intros Hs Hout. unfold flush. rewrite Hs, Hout, last_snoc, endsWith_append.
  rewrite insert_last, substring_without_suffix.
  destruct (send_remaining_contents (lines ++ [body]) w) as (w' & Hrun & Hcontents & _).
  exists w'. split; [done|]. by rewrite Hcontents, removelast_last, last_snoc.
Qed.

(** The flush when the last line to come out does not end with the
    suffix: everything comes out as it is. *)
Lemma flush_keeps_text (p s : string) (lines : list string) (line : string) l w :
  Js.truthy s = true ->
  Js.endsWith line s = false ->
  (if Js.truthy (bufferedText l) then pendingLines l ++ [bufferedText l] else pendingLines l)
  = lines ++ [line] ->
  exists w',
    flush (Some (p, s)) l w = (Normal (), w')
    /\ contents (sink w') = contents (sink w) ++ map Lines.with_newline lines ++ [line].
Proof.
  intros Hs Hends Hout. unfold flush. rewrite Hs, Hout, last_snoc, Hends.
  destruct (send_remaining_contents (lines ++ [line]) w) as (w' & Hrun & Hcontents & _).
  exists w'. split; [done|]. by rewrite Hcontents, removelast_last, last_snoc.
Qed.

Lemma truthy_append (a b : string) : Js.truthy b = true -> Js.truthy (a +:+ b) = true.
Proof. by destruct a, b. Qed.

Lemma concat_text_lines (lines : list string) (tail : string) :
  concat_text (map Lines.with_newline lines ++ [tail]) = Lines.lines_text lines +:+ tail.
Proof.
  rewrite concat_text_app. unfold Lines.lines_text. f_equal.
  change (tail +:+ "" = tail). apply append_empty_r.
Qed.

Lemma released_retained (text : string) :
  Lines.released text ++ Lines.retained text = Lines.lines_of text.
Proof. apply take_drop. Qed.

(** ** More of the trim filter and of the dispatcher *)

(** X1: the trim filter depends on the text, not on how it is cut.  When
    the text of the chunks is the prefix (a text without newline)
    followed by [Y], then whatever the deltas and whatever chunks
    without text stand between them: the [Content] events of the loop
    are the completed lines of [Y] but the last three, each with its
    newline; [pendingLines] holds these last three lines (or fewer) and
    [bufferedText] what follows the last newline of [Y]. *)
Theorem trim_filter_state_follows_text (p s : string) cs (Y : string) w :
  Js.newline_free p = true ->
  text_of_chunks cs = p +:+ Y ->
  exists l' w',
    for_chunks (Some (p, s)) cs initial_locals w = (Normal l', w')
    /\ bufferedText l' = Lines.tail_of Y
    /\ pendingLines l' = Lines.retained Y
    /\ contents (sink w') = contents (sink w) ++ map Lines.with_newline (Lines.released Y).
Proof.
  intros Hfree Htext.
  apply (prefix_loop p s cs "" p Y w Hfree); [done|by right|exact Htext].
Qed.

(** X3: the round trip for every text.  With a prefix and a suffix
    without newlines, the suffix not empty, and chunks whose text is the
    prefix, a body and the suffix, the texts of the [Content] events put
    together are the body, however the text is cut into deltas. *)
Theorem trim_round_trip
    (provider : Any) (request : string) (tools : list (ToolRequest Any))
    (history : list IChatMessage) (modelId : option string)
    (temperature topP topK : option Js.number) (providerOptions : option Any)
    (p s body : string) cs :
  Js.newline_free p = true ->
  Js.newline_free s = true ->
  Js.truthy s = true ->
  text_of_chunks cs = p +:+ body +:+ s ->
  content_text
    (sink (handleStreamingRequest provider request tools history modelId temperature topP topK
             providerOptions (Some (p, s)) {| chunks := cs; fault := None |} initial_world).2)
  = body.
Proof.
  intros Hp Hs Htruthy Htext.
  destruct (handleStreamingRequest_steps provider request tools history modelId temperature
              topP topK providerOptions (Some (p, s)) cs initial_world)
    as (w1 & Hsink1 & _ & Hsteps).
  destruct (prefix_loop p s cs "" p (body +:+ s) w1 Hp eq_refl (or_intror eq_refl) Htext)
    as (l' & w2 & Hloop & Hbuf & Hpend & Hcontents).
  destruct (lines_of_append_free body s Hs) as [Hlines Htail].
  destruct (flush_cuts_suffix p s (pendingLines l') (Lines.tail_of body) l' w2 Htruthy)
    as (w3 & Hflush & Hflushed).
  { by rewrite Hbuf, Htail, truthy_append. }
  rewrite (Hsteps l' w2 w3 Hloop Hflush), content_text_contents, contents_app.
  cbn [contents]. rewrite app_nil_r, Hflushed, Hcontents, Hsink1, Hpend. cbn [initial_world sink contents app].
  rewrite app_assoc, <- map_app, released_retained, concat_text_lines, Hlines.
  apply lines_and_tail.
Qed.

(** X4: without a suffix nothing is flushed.  With a trim configuration
    whose prefix has no newline and whose suffix is empty, and chunks
    whose text is the prefix followed by [Y], the [Content] events of
    the whole request are the completed lines of [Y] but the last three;
    the last three lines and the text after the last newline never
    reach the sink. *)
Theorem no_suffix_last_lines_withheld
    (provider : Any) (request : string) (tools : list (ToolRequest Any))
    (history : list IChatMessage) (modelId : option string)
    (temperature topP topK : option Js.number) (providerOptions : option Any)
    (p Y : string) cs :
  Js.newline_free p = true ->
  text_of_chunks cs = p +:+ Y ->
  contents
    (sink (handleStreamingRequest provider request tools history modelId temperature topP topK
             providerOptions (Some (p, "")) {| chunks := cs; fault := None |} initial_world).2)
  = map Lines.with_newline (Lines.released Y).
Proof.
  intros Hp Htext.
  destruct (handleStreamingRequest_steps provider request tools history modelId temperature
              topP topK providerOptions (Some (p, "")) cs initial_world)
    as (w1 & Hsink1 & _ & Hsteps).
  destruct (prefix_loop p "" cs "" p Y w1 Hp eq_refl (or_intror eq_refl) Htext)
    as (l' & w2 & Hloop & _ & _ & Hcontents).
  rewrite (Hsteps l' w2 w2 Hloop eq_refl), contents_app, Hcontents, Hsink1.
  cbn [initial_world sink contents app]. apply app_nil_r.
Qed.

(** X5: a text that ends with a newline.  With a prefix and a suffix
    without newlines, the suffix not empty: when the text of the chunks
    is the prefix, a body, the suffix and one final newline, the suffix
    is still found and cut, and the final newline is not emitted: the
    texts of the [Content] events put together are the body. *)
Theorem trim_round_trip_final_newline
    (provider : Any) (request : string) (tools : list (ToolRequest Any))
    (history : list IChatMessage) (modelId : option string)
    (temperature topP topK : option Js.number) (providerOptions : option Any)
    (p s body : string) cs :
  Js.newline_free p = true ->
  Js.newline_free s = true ->
  Js.truthy s = true ->
  text_of_chunks cs = p +:+ (body +:+ s) +:+ Js.nl ->
  content_text
    (sink (handleStreamingRequest provider request tools history modelId temperature topP topK
             providerOptions (Some (p, s)) {| chunks := cs; fault := None |} initial_world).2)
  = body.
Proof.
  intros Hp Hs Htruthy Htext.
  destruct (handleStreamingRequest_steps provider request tools history modelId temperature
              topP topK providerOptions (Some (p, s)) cs initial_world)
    as (w1 & Hsink1 & _ & Hsteps).
  destruct (prefix_loop p s cs "" p ((body +:+ s) +:+ Js.nl) w1 Hp eq_refl
              (or_intror eq_refl) Htext)
    as (l' & w2 & Hloop & Hbuf & Hpend & Hcontents).
  destruct (lines_of_append_newline (body +:+ s)) as [Hlines Htail].
  destruct (lines_of_append_free body s Hs) as [Hlines' Htail'].
  rewrite Hlines', Htail' in Hlines.
  assert (Lines.released ((body +:+ s) +:+ Js.nl)
          = take (length (Lines.lines_of body) + 1 - 3) (Lines.lines_of body)
          /\ Lines.retained ((body +:+ s) +:+ Js.nl)
            = drop (length (Lines.lines_of body) + 1 - 3) (Lines.lines_of body)
              ++ [Lines.tail_of body +:+ s]) as [Hreleased Hretained].
  { unfold Lines.released, Lines.retained. rewrite Hlines, length_app. cbn [length].
    rewrite take_app_le, drop_app_le by lia. done. }
  destruct (flush_cuts_suffix p s
              (drop (length (Lines.lines_of body) + 1 - 3) (Lines.lines_of body))
              (Lines.tail_of body) l' w2 Htruthy)
    as (w3 & Hflush & Hflushed).
  { by rewrite Hbuf, Htail, Hpend, Hretained. }
  rewrite (Hsteps l' w2 w3 Hloop Hflush), content_text_contents, contents_app.
  cbn [contents]. rewrite app_nil_r, Hflushed, Hcontents, Hsink1, Hreleased.
  cbn [initial_world sink contents app].
  rewrite app_assoc, <- map_app, take_drop, concat_text_lines.
  apply lines_and_tail.
Qed.

(** X6: a text without the markers passes unchanged.  When the prefix
    occurs nowhere in the text of the chunks, and the text ends with an
    unfinished line that does not end with the suffix, the texts of the
    [Content] events put together are the text of the chunks. *)
Theorem trim_without_markers_keeps_text
    (provider : Any) (request : string) (tools : list (ToolRequest Any))
    (history : list IChatMessage) (modelId : option string)
    (temperature topP topK : option Js.number) (providerOptions : option Any)
    (p s : string) cs :
  Js.includes (text_of_chunks cs) p = false ->
  Js.truthy s = true ->
  Js.truthy (Lines.tail_of (text_of_chunks cs)) = true ->
  Js.endsWith (Lines.tail_of (text_of_chunks cs)) s = false ->
  content_text
    (sink (handleStreamingRequest provider request tools history modelId temperature topP topK
             providerOptions (Some (p, s)) {| chunks := cs; fault := None |} initial_world).2)
  = text_of_chunks cs.
Proof.
  intros Hout Htruthy Htail Hends.
  destruct (handleStreamingRequest_steps provider request tools history modelId temperature
              topP topK providerOptions (Some (p, s)) cs initial_world)
    as (w1 & Hsink1 & _ & Hsteps).
  destruct (steady_loop p s cs true "" w1) as (first & w2 & batch & Hloop & Hcontents & Hbatch).
  { right. right. exact Hout. }
  change ("" +:+ text_of_chunks cs) with (text_of_chunks cs) in *.
  change (Lines.released "") with (@nil string) in Hbatch. cbn [app] in Hbatch.
  destruct (flush_keeps_text p s (Lines.retained (text_of_chunks cs))
              (Lines.tail_of (text_of_chunks cs))
              {| isFirstChunk := first; bufferedText := Lines.tail_of (text_of_chunks cs);
                 pendingLines := Lines.retained (text_of_chunks cs) |} w2 Htruthy Hends)
    as (w3 & Hflush & Hflushed).
  { cbn [bufferedText pendingLines]. by rewrite Htail. }
  rewrite (Hsteps _ w2 w3 Hloop Hflush), content_text_contents, contents_app.
  cbn [contents]. rewrite app_nil_r, Hflushed, Hcontents, Hsink1, <- Hbatch.
  cbn [initial_world sink contents app].
  rewrite app_assoc, <- map_app, released_retained, concat_text_lines.
  apply lines_and_tail.
Qed.

(** *** Bounds of the buffers *)

Lemma on_text_trimmed_bounds (p d : string) l w :
  exists l' w',
    on_text_trimmed p d l w = (Normal l', w')
    /\ (length (pendingLines l') <= 3)%nat
    /\ Js.newline_free (bufferedText l') = true.
Proof.
  unfold on_text_trimmed.
  destruct (if isFirstChunk l && Js.includes (bufferedText l +:+ d) p then _ else _)
    as [buffered first].
  destruct (send_lines_runs (pendingLines l ++ removelast (Js.split_nl buffered)) w)
    as (w' & Hsend & _).
  eexists _, w'. unfold bind. rewrite Hsend. split; [reflexivity|].
  cbn [pendingLines bufferedText]. split.
  - rewrite length_drop. lia.
  - apply (tail_of_free buffered).
Qed.

(** X2: the buffers stay small.  Whatever the trim configuration and the
    chunks, after the loop [pendingLines] holds at most three lines and
    [bufferedText] holds no newline. *)
Theorem trim_buffers_bounded trim cs w :
  exists l' w',
    for_chunks trim cs initial_locals w = (Normal l', w')
    /\ (length (pendingLines l') <= 3)%nat
    /\ Js.newline_free (bufferedText l') = true.
Proof.
  assert (forall l w,
             (length (pendingLines l) <= 3)%nat ->
             Js.newline_free (bufferedText l) = true ->
             exists l' w',
               for_chunks trim cs l w = (Normal l', w')
               /\ (length (pendingLines l') <= 3)%nat
               /\ Js.newline_free (bufferedText l') = true) as Hloop.
  { clear w. induction cs as [|c cs IH]; intros l w Hpend Hbuf; [by exists l, w|].
    cbn [for_chunks]. unfold bind.
    destruct (text_or_silent c) as [[d ->]|[Hother _]].
    - destruct trim as [[p s]|]; cbn [on_chunk].
      + destruct (on_text_trimmed_bounds p d l w) as (l1 & w1 & -> & Hpend1 & Hbuf1).
        by apply IH.
      + by apply IH.
    - destruct (on_chunk_silent trim c l w Hother) as (w1 & -> & _). by apply IH. }
  apply Hloop; [cbn; lia|done].
Qed.

(** *** A stream that breaks *)

Lemma handleStreamingRequest_steps_faulted
    (provider : Any) (request : string) (tools : list (ToolRequest Any))
    (history : list IChatMessage) (modelId : option string)
    (temperature topP topK : option Js.number) (providerOptions : option Any)
    trim cs (e : exn) w :
  exists w1,
    sink w1 = sink w
    /\ forall l' w2,
         for_chunks trim cs initial_locals w1 = (Normal l', w2) ->
         sink (handleStreamingRequest provider request tools history modelId temperature topP
                 topK providerOptions trim {| chunks := cs; fault := Some e |} w).2
         = sink w2 ++ [EmitError e].
Proof.
  unfold handleStreamingRequest, try_catch, for_await.
  match goal with |- context [streamText ?a] => set (args := a) end.
  exists (streamText args w).2. split; [done|].
  intros l' w2 Hloop. unfold bind at 1. cbn [streamText snd] in Hloop |- *.
  unfold bind. cbn [chunks fault]. by rewrite Hloop.
Qed.

(** X7: a fault skips the flush.  With a trim configuration whose
    prefix has no newline: when iterating raises a fault after chunks
    whose text is the prefix followed by [Y], then even with a suffix
    configured the [Content] events are only the completed lines of [Y]
    but the last three: the retained lines and the unfinished line are
    not sent. *)
Theorem fault_skips_flush
    (provider : Any) (request : string) (tools : list (ToolRequest Any))
    (history : list IChatMessage) (modelId : option string)
    (temperature topP topK : option Js.number) (providerOptions : option Any)
    (p s Y : string) cs (e : exn) :
  Js.newline_free p = true ->
  text_of_chunks cs = p +:+ Y ->
  contents
    (sink (handleStreamingRequest provider request tools history modelId temperature topP topK
             providerOptions (Some (p, s)) {| chunks := cs; fault := Some e |}
             initial_world).2)
  = map Lines.with_newline (Lines.released Y).
Proof.
  intros Hp Htext.
  destruct (handleStreamingRequest_steps_faulted provider request tools history modelId
              temperature topP topK providerOptions (Some (p, s)) cs e initial_world)
    as (w1 & Hsink1 & Hsteps).
  destruct (prefix_loop p s cs "" p Y w1 Hp eq_refl (or_intror eq_refl) Htext)
    as (l' & w2 & Hloop & _ & _ & Hcontents).
  rewrite (Hsteps l' w2 Hloop), contents_app, Hcontents, Hsink1.
  cbn [initial_world sink contents app]. apply app_nil_r.
Qed.

(** *** The tool table *)

Lemma foldl_insert_other {V : Type} (entries : list (string * V)) (m : gmap string V)
    (k : string) :
  k ∉ map fst entries ->
  foldl (fun m kv => <[kv.1 := kv.2]> m) m entries !! k = m !! k.
Proof.
  revert m. induction entries as [|[k' v] entries IH]; intros m Hk; [done|].
  cbn [map fst] in Hk. apply not_elem_of_cons in Hk as [Hne Hk].
  cbn [foldl]. rewrite (IH _ Hk). by apply lookup_insert_ne.
Qed.

Lemma fromEntries_last {V : Type} (pre post : list (string * V)) (k : string) (v : V) :
  k ∉ map fst post ->
  fromEntries (pre ++ (k, v) :: post) !! k = Some v.
Proof.
  intros Hk. unfold fromEntries. rewrite foldl_app. cbn [foldl].
  rewrite (foldl_insert_other _ _ _ Hk). apply lookup_insert_eq.
Qed.

Lemma foldl_insert_keys {V : Type} (entries : list (string * V)) (m : gmap string V)
    (k : string) :
  is_Some (foldl (fun m kv => <[kv.1 := kv.2]> m) m entries !! k)
  <-> is_Some (m !! k) \/ k ∈ map fst entries.
Proof.
  revert m. induction entries as [|[k' v] entries IH]; intros m.
  - cbn. split; [by left|]. intros [?|Hin]; [done|]. by apply elem_of_nil in Hin.
  - cbn [foldl map fst]. rewrite IH, lookup_insert_is_Some, elem_of_cons.
    destruct (decide (k' = k)) as [->|Hne]; [intuition auto|intuition congruence].
Qed.

Lemma fromEntries_keys {V : Type} (entries : list (string * V)) (k : string) :
  is_Some (fromEntries entries !! k) <-> k ∈ map fst entries.
Proof.
  unfold fromEntries. rewrite foldl_insert_keys. split; [|by right].
  intros [Hempty|?]; [|done]. by apply lookup_empty_is_Some in Hempty.
Qed.

(** X8: a later tool replaces an earlier one of the same name.  For the
    tool that is the last of its name in the list, the table handed to
    the provider has, under that name, an entry with the tool's
    description (or the empty text) whose [execute] calls the tool's
    handler on the stringified arguments. *)
Theorem tool_table_last_wins
    (provider : Any) (request : string) (pre post : list (ToolRequest Any))
    (tool : ToolRequest Any)
    (history : list IChatMessage) (modelId : option string)
    (temperature topP topK : option Js.number) (providerOptions : option Any)
    trim (stream : fullStream Any) :
  tr_name tool ∉ map tr_name post ->
  exists a entry,
    provider_calls
      (handleStreamingRequest provider request (pre ++ tool :: post) history modelId
         temperature topP topK providerOptions trim stream initial_world).2 = [a]
    /\ st_tools a !! tr_name tool = Some entry
    /\ description entry = default "" (tr_description tool)
    /\ forall args options,
         execute entry args options = tr_handler tool (JSON_stringify args) options.
Proof.
  intros Hlast.
  destruct (handleStreamingRequest_opens provider request (pre ++ tool :: post) history
              modelId temperature topP topK providerOptions trim stream initial_world)
    as (a & Hcalls & Htools & _).
  exists a, (convertToolRequestToAITool tool). split_and!; [done| |done|done].
  rewrite Htools, map_app. cbn [map]. apply fromEntries_last.
  by rewrite map_map.
Qed.

(** X9: with the tools switched on, the names of the tool table are the
    names of the functions the registry has for the client. *)
Theorem tool_table_names
    (request_text : string) (options : IAIBackServiceOption Any) (stream : fullStream Any)
    (client : string) :
  clientId options = Some client ->
  Js.truthy client = true ->
  noTool options <> Some true ->
  exists a,
    provider_calls (request request_text options stream initial_world).2 = [a]
    /\ forall name,
         is_Some (st_tools a !! name) <-> name ∈ map tr_name (getAllFunctions client).
Proof.
  intros Hclient Htruthy Htools. unfold request. rewrite Hclient.
  destruct client as [|c client]; [done|].
  match goal with
  | |- context [handleStreamingRequest ?p ?r ?t ?h ?m ?te ?tp ?tk ?po ?tr ?s ?w] =>
      destruct (handleStreamingRequest_opens p r t h m te tp tk po tr s w)
        as (a & Hcalls & Htable & _)
  end.
  exists a. split; [done|]. intros name. rewrite Htable, fromEntries_keys, map_map.
  destruct (noTool options) as [[|]|]; done.
Qed.

(** *** The messages *)

Lemma handleStreamingRequest_sends
    (provider : Any) (request : string) (tools : list (ToolRequest Any))
    (history : list IChatMessage) (modelId : option string)
    (temperature topP topK : option Js.number) (providerOptions : option Any)
    trim (stream : fullStream Any) w :
  exists a,
    provider_calls
      (handleStreamingRequest provider request tools history modelId temperature topP topK
         providerOptions trim stream w).2 = provider_calls w ++ [a]
    /\ st_messages a
       = map (fun msg => {| role := convertChatMessageRole (msg_role msg);
                            content := msg_content msg |}) history
         ++ [{| role := "user"; content := request |}].
Proof.
  unfold handleStreamingRequest, try_catch.
  match goal with |- context [streamText ?a] => set (args := a) end.
  exists args. split; [|done].
  unfold bind at 1. cbn [streamText].
  match goal with |- context [bind _ _ ?x] => set (w1 := x) end.
  destruct (fault stream) as [e|] eqn:Hfault.
  - destruct (for_await_faulted trim stream initial_locals w1 e Hfault)
      as (l' & loop_calls & w2 & Hloop & _ & Hcalls & _).
    rewrite (bind_thrown _ _ _ _ _ Hloop). simpl. by rewrite Hcalls.
  - destruct (for_await_ended trim stream initial_locals w1 Hfault)
      as (l' & loop_calls & w2 & Hloop & _).
    destruct (flush_runs trim l' w2) as (flush_calls & w3 & Hflush & _).
    assert (runs (l <- for_await trim stream initial_locals;; flush trim l;; end_) w1 ()
              (loop_calls ++ flush_calls ++ [End]) (call_sink End w3).2) as (Hrun & _ & Hcalls).
    { eapply runs_bind; [exact Hloop|]. eapply runs_bind; [exact Hflush|apply runs_call_sink]. }
    rewrite Hrun. simpl in *. by rewrite Hcalls.
Qed.

(** X10: for a request with a client identifier, the messages handed to
    the provider are the messages of [options.history] (none when it is
    absent), in order, each with its content unchanged and with the role
    "system", "user", "assistant" or "tool" for the roles System, User,
    Assistant and Function and "user" for any other role, followed by
    the new request as the last message, with role "user". *)
Theorem messages_end_with_the_request
    (request_text : string) (options : IAIBackServiceOption Any) (stream : fullStream Any)
    (client : string) :
  clientId options = Some client ->
  Js.truthy client = true ->
  exists a,
    provider_calls (request request_text options stream initial_world).2 = [a]
    /\ st_messages a
       = map (fun msg =>
                {| role := match msg_role msg with
                           | RoleSystem => "system"
                           | RoleUser => "user"
                           | RoleAssistant => "assistant"
                           | RoleFunction => "tool"
                           | RoleOther => "user"
                           end;
                   content := msg_content msg |})
           (default [] (history options))
         ++ [{| role := "user"; content := request_text |}].
Proof.
  intros Hclient Htruthy. unfold request. rewrite Hclient.
  destruct client as [|c client]; [done|].
  match goal with
  | |- context [handleStreamingRequest ?p ?r ?t ?h ?m ?te ?tp ?tk ?po ?tr ?s ?w] =>
      destruct (handleStreamingRequest_sends p r t h m te tp tk po tr s w)
        as (a & Hcalls & Hmsgs)
  end.
  exists a. rewrite Hcalls, Hmsgs. by split.
Qed.

(** *** Identifiers and the wall clock *)

Lemma call_ids_app calls1 calls2 : call_ids (calls1 ++ calls2) = call_ids calls1 ++ call_ids calls2.
Proof.
  induction calls1 as [|c calls1 IH]; [done|].
  destruct c as [[t|tc]|e|]; simpl; by rewrite ?IH.
Qed.

Lemma call_ids_line_events (lines : list string) :
  call_ids (map (line_event (Any:=Any)) lines) = [].
Proof. by induction lines. Qed.

Lemma on_text_trimmed_quiet (p d : string) l w :
  exists l' w',
    on_text_trimmed p d l w = (Normal l', w')
    /\ call_ids (sink w') = call_ids (sink w)
    /\ clock_reads w' = clock_reads w.
Proof.
  unfold on_text_trimmed.
  destruct (if isFirstChunk l && Js.includes (bufferedText l +:+ d) p then _ else _)
    as [buffered first].
  pose proof (send_lines_clock (pendingLines l ++ removelast (Js.split_nl buffered)) w) as Hclock.
  destruct (send_lines_runs (pendingLines l ++ removelast (Js.split_nl buffered)) w)
    as (w' & Hsend & Hsink & _).
  rewrite Hsend in Hclock. eexists _, w'. unfold bind. rewrite Hsend.
  split; [reflexivity|]. split; [|exact Hclock].
  by rewrite Hsink, call_ids_app, call_ids_line_events, app_nil_r.
Qed.

Lemma for_chunks_ids trim cs l w :
  exists l' w',
    for_chunks trim cs l w = (Normal l', w')
    /\ call_ids (sink w') = call_ids (sink w) ++ expected_ids (clock_reads w) cs
    /\ clock_reads w' = (clock_reads w + length (List.filter anonymous_call cs))%nat.
Proof.
  revert l w. induction cs as [|c cs IH]; intros l w.
  - exists l, w. by rewrite app_nil_r, Nat.add_0_r.
  - cbn [for_chunks]. unfold bind.
    assert (exists l1 w1,
               on_chunk trim c l w = (Normal l1, w1)
               /\ call_ids (sink w1) ++ expected_ids (clock_reads w1) cs
                  = call_ids (sink w) ++ expected_ids (clock_reads w) (c :: cs)
               /\ (clock_reads w1 + length (List.filter anonymous_call cs)
                   = clock_reads w + length (List.filter anonymous_call (c :: cs)))%nat)
      as (l1 & w1 & -> & Hids & Hclock).
    { destruct c as [d|toolCallId toolName args| | | | |]; cbn [on_chunk].
      - destruct trim as [[p s]|].
        + destruct (on_text_trimmed_quiet p d l w) as (l1 & w1 & Hstep & Hids & Hclock).
          exists l1, w1. by rewrite Hstep, Hids, Hclock.
        + eexists _, _. split; [reflexivity|]. cbn. by rewrite call_ids_app, app_nil_r.
      - cbn [expected_ids List.filter anonymous_call]. destruct (Js.truthy toolCallId).
        + eexists _, _. split; [reflexivity|]. cbn. by rewrite call_ids_app, <- app_assoc.
        + eexists _, _. split; [reflexivity|]. cbn.
          rewrite call_ids_app, <- app_assoc. split; [done|lia].
      - eexists _, _. split; [reflexivity|]. cbn. by rewrite call_ids_app, <- app_assoc.
      - eexists _, _. split; [reflexivity|]. cbn. by rewrite call_ids_app, <- app_assoc.
      - eexists _, _. split; [reflexivity|]. cbn. by rewrite call_ids_app, <- app_assoc.
      - eexists _, _. split; [reflexivity|]. cbn. by rewrite call_ids_app, app_nil_r.
      - by exists l, w. }
    destruct (IH l1 w1) as (l' & w' & Hloop & Hids' & Hclock').
    exists l', w'. by rewrite Hloop, Hids', Hids, Hclock', Hclock.
Qed.

(** X11: every tool-call event carries the identifier of its chunk; only
    a complete tool call that comes without identifier gets one made
    up, the decimal text of the wall clock's next reading.  The
    identifiers at the sink, in order, are those of [expected_ids]. *)
Theorem tool_call_ids_follow_chunks
    (provider : Any) (request : string) (tools : list (ToolRequest Any))
    (history : list IChatMessage) (modelId : option string)
    (temperature topP topK : option Js.number) (providerOptions : option Any)
    trim cs :
  call_ids
    (sink (handleStreamingRequest provider request tools history modelId temperature topP topK
             providerOptions trim {| chunks := cs; fault := None |} initial_world).2)
  = expected_ids 0 cs.
Proof.
  destruct (handleStreamingRequest_steps provider request tools history modelId temperature
              topP topK providerOptions trim cs initial_world)
    as (w1 & Hsink1 & Hclock1 & Hsteps).
  destruct (for_chunks_ids trim cs initial_locals w1) as (l' & w2 & Hloop & Hids & _).
  destruct (flush_runs trim l' w2) as (flush_calls & w3 & (Hflush & Hsink3 & _) & Hcontent & _).
  rewrite (Hsteps l' w2 w3 Hloop Hflush), call_ids_app, Hsink3, call_ids_app, Hids.
  rewrite Hsink1, Hclock1. cbn [initial_world sink clock_reads call_ids app].
  rewrite app_nil_r.
  assert (call_ids flush_calls = []) as ->; [|apply app_nil_r].
  clear -Hcontent. induction Hcontent as [|c calls Hc _ IH]; [done|].
  by destruct c as [[t|tc]|e|].
Qed.

(** X12: the loop reads the wall clock once for every complete tool call
    that comes without identifier, and never otherwise. *)
Theorem clock_read_once_per_anonymous_call trim cs w :
  exists l' w',
    for_chunks trim cs initial_locals w = (Normal l', w')
    /\ clock_reads w' = (clock_reads w + length (List.filter anonymous_call cs))%nat.
Proof.
  destruct (for_chunks_ids trim cs initial_locals w) as (l' & w' & Hloop & _ & Hclock).
  by exists l', w'.
Qed.

End MoreProperties.

(** ** The further properties at concrete inputs *)

(** X1 at the marked sample stream. *)
Lemma trim_filter_state_sample :
  Js.newline_free "P:" = true
  /\ text_of_chunks Marked.chunks = "P:" +:+ (Marked.body +:+ ":E")
  /\ exists l' w',
       for_chunks (Some ("P:", ":E")) Marked.chunks initial_locals initial_world
       = (Normal l', w')
       /\ bufferedText l' = Lines.tail_of (Marked.body +:+ ":E")
       /\ pendingLines l' = Lines.retained (Marked.body +:+ ":E")
       /\ contents (sink w')
          = contents (sink (initial_world (Any:=string)))
            ++ map Lines.with_newline (Lines.released (Marked.body +:+ ":E")).
Proof.
  split; [reflexivity|]. split; [reflexivity|].
  apply (trim_filter_state_follows_text "P:" ":E" Marked.chunks (Marked.body +:+ ":E")
           initial_world); reflexivity.
Defined.

(** X3 at the marked sample stream. *)
Lemma trim_round_trip_sample :
  Js.newline_free "P:" = true
  /\ Js.newline_free ":E" = true
  /\ Js.truthy ":E" = true
  /\ text_of_chunks Marked.chunks = "P:" +:+ Marked.body +:+ ":E"
  /\ content_text
       (sink (handleStreamingRequest "provider" "hi" [] [] None None None None None
                (Some ("P:", ":E")) {| chunks := Marked.chunks; fault := None |}
                initial_world).2)
     = Marked.body.
Proof.
  split_and!; [reflexivity..|].
  apply (trim_round_trip "provider" "hi" [] [] None None None None None
           "P:" ":E" Marked.body Marked.chunks); reflexivity.
Defined.

(** X4 at the marked sample stream, without a suffix. *)
Lemma no_suffix_sample :
  Js.newline_free "P:" = true
  /\ text_of_chunks Marked.chunks = "P:" +:+ (Marked.body +:+ ":E")
  /\ contents
       (sink (handleStreamingRequest "provider" "hi" [] [] None None None None None
                (Some ("P:", "")) {| chunks := Marked.chunks; fault := None |}
                initial_world).2)
     = map Lines.with_newline (Lines.released (Marked.body +:+ ":E")).
Proof.
  split_and!; [reflexivity..|].
  apply (no_suffix_last_lines_withheld "provider" "hi" [] [] None None None None None
           "P:" (Marked.body +:+ ":E") Marked.chunks); reflexivity.
Defined.

(** X5 at the marked sample stream followed by a newline. *)
Lemma trim_round_trip_final_newline_sample :
  Js.newline_free "P:" = true
  /\ Js.newline_free ":E" = true
  /\ Js.truthy ":E" = true
  /\ text_of_chunks Marked.chunks_with_newline = "P:" +:+ (Marked.body +:+ ":E") +:+ Js.nl
  /\ content_text
       (sink (handleStreamingRequest "provider" "hi" [] [] None None None None None
                (Some ("P:", ":E"))
                {| chunks := Marked.chunks_with_newline; fault := None |}
                initial_world).2)
     = Marked.body.
Proof.
  split_and!; [reflexivity..|].
  apply (trim_round_trip_final_newline "provider" "hi" [] [] None None None None None
           "P:" ":E" Marked.body Marked.chunks_with_newline); reflexivity.
Defined.

(** X6 at a text without markers. *)
Lemma trim_without_markers_sample :
  Js.includes (text_of_chunks Marked.plain_chunks) "P:" = false
  /\ Js.truthy ":E" = true
  /\ Js.truthy (Lines.tail_of (text_of_chunks Marked.plain_chunks)) = true
  /\ Js.endsWith (Lines.tail_of (text_of_chunks Marked.plain_chunks)) ":E" = false
  /\ content_text
       (sink (handleStreamingRequest "provider" "hi" [] [] None None None None None
                (Some ("P:", ":E")) {| chunks := Marked.plain_chunks; fault := None |}
                initial_world).2)
     = text_of_chunks Marked.plain_chunks.
Proof.
  split_and!; [reflexivity..|].
  apply (trim_without_markers_keeps_text "provider" "hi" [] [] None None None None None
           "P:" ":E" Marked.plain_chunks); reflexivity.
Defined.

(** X7 at the marked sample stream, broken by a fault. *)
Lemma fault_skips_flush_sample :
  Js.newline_free "P:" = true
  /\ text_of_chunks Marked.chunks = "P:" +:+ (Marked.body +:+ ":E")
  /\ contents
       (sink (handleStreamingRequest "provider" "hi" [] [] None None None None None
                (Some ("P:", ":E"))
                {| chunks := Marked.chunks; fault := Some (JsError "socket closed") |}
                initial_world).2)
     = map Lines.with_newline (Lines.released (Marked.body +:+ ":E")).
Proof.
  split_and!; [reflexivity..|].
  apply (fault_skips_flush "provider" "hi" [] [] None None None None None
           "P:" ":E" (Marked.body +:+ ":E") Marked.chunks (JsError "socket closed"));
    reflexivity.
Defined.

(** X8 at two tools named "search" followed by another tool. *)
Lemma tool_table_last_wins_sample :
  (tr_name Sample.lookup_tool ∉ map tr_name [Marked.other_tool])
  /\ exists a entry,
       provider_calls
         (handleStreamingRequest "provider" "hi"
            ([Marked.first_search] ++ Sample.lookup_tool :: [Marked.other_tool]) [] None
            None None None None None (Sample.ended []) initial_world).2 = [a]
       /\ st_tools a !! tr_name Sample.lookup_tool = Some entry
       /\ description entry = default "" (tr_description Sample.lookup_tool)
       /\ forall args options,
            execute entry args options
            = tr_handler Sample.lookup_tool (JSON_stringify args) options.
Proof.
  assert (tr_name Sample.lookup_tool ∉ map tr_name [Marked.other_tool]) as Hlast.
  { cbn. rewrite not_elem_of_cons. split; [done|apply not_elem_of_nil]. }
  split; [exact Hlast|].
  exact (tool_table_last_wins "provider" "hi" [Marked.first_search] [Marked.other_tool]
           Sample.lookup_tool [] None None None None None None (Sample.ended []) Hlast).
Defined.

(** X9 at a client whose registry holds one tool. *)
Lemma tool_table_names_sample :
  clientId Marked.with_tools = Some "client-1"
  /\ Js.truthy "client-1" = true
  /\ noTool Marked.with_tools <> Some true
  /\ exists a,
       provider_calls (request "hi" Marked.with_tools (Sample.ended []) initial_world).2 = [a]
       /\ forall name,
            is_Some (st_tools a !! name) <-> name ∈ map tr_name (getAllFunctions "client-1").
Proof.
  split_and!; [reflexivity|reflexivity|discriminate|].
  apply (tool_table_names "hi" Marked.with_tools (Sample.ended []) "client-1");
    [reflexivity|reflexivity|discriminate].
Defined.

(** X10 at a history with one message of every role. *)
Lemma messages_sample :
  clientId Marked.with_history = Some "client-1"
  /\ Js.truthy "client-1" = true
  /\ exists a,
       provider_calls (request "next" Marked.with_history (Sample.ended []) initial_world).2
       = [a]
       /\ st_messages a
          = map (fun msg =>
                   {| role := match msg_role msg with
                              | RoleSystem => "system"
                              | RoleUser => "user"
                              | RoleAssistant => "assistant"
                              | RoleFunction => "tool"
                              | RoleOther => "user"
                              end;
                      content := msg_content msg |})
              (default [] (history Marked.with_history))
            ++ [{| role := "user"; content := "next" |}].
Proof.
  split; [reflexivity|]. split; [reflexivity|].
  apply (messages_end_with_the_request "next" Marked.with_history (Sample.ended [])
           "client-1"); reflexivity.
Defined.
